(** * XPlore: a shallow embedding of [src/Xplore/core.py]

    The module [get_mentions] is the paginated, rate-limit-aware search
    loop; [keyword2csv] builds the CSV rows of the mentions export;
    [get_users] is the batched profile fetcher; [create_url] builds the
    URL of the counts endpoint and [get_tweet_counts] labels its bars;
    [userdata2csv] writes the profiles; [analysis.splitbylanguage]
    counts posts per detected language.  The HTTP server is an explicit
    parameter: a function from the index of the request within a session
    (or from the URL) and the request's parameters to the response it
    returns. *)

From stdpp Require Import base gmap strings list.
From Stdlib Require Import ZArith String Ascii Sorted.

Open Scope Z_scope.

(* ------------------------------------------------------------------ *)
(** ** Data model: the JSON objects the code reads *)

(** A tweet object as returned with [tweet.fields=created_at,author_id,text]. *)
Record tweet := mk_tweet {
  t_id : string;
  t_author_id : string;
  t_text : string;
  t_created_at : string
}.

(** A user object of [includes.users]; [location] is optional in the API. *)
Record user := mk_user {
  u_id : string;
  u_username : string;
  u_location : option string
}.

(** [meta]: [Some t] when the key [next_token] is present. *)
Record meta := mk_meta { next_token : option string }.

(** [includes]: [users] may be absent. *)
Record includes := mk_includes { inc_users : option (list user) }.

(** The decoded body of a search response; every top-level key may be absent. *)
Record search_json := mk_search_json {
  j_data : option (list tweet);
  j_includes : option includes;
  j_meta : option meta
}.

(** A search response: [json_body = None] when the body is not JSON, so that
    [response.json()] raises. *)
Record search_response := mk_search_response {
  status_code : Z;
  text : string;
  json_body : option search_json
}.

(** The query parameters [params] of [get_mentions]. *)
Record params := mk_params {
  p_query : string;
  p_max_results : Z;
  p_next_token : option string
}.

(** The exceptions the modelled code can raise. *)
Inductive exn :=
| CannotFetch (body : string)        (* Exception(f"Cannot fetch mentions: ...") *)
| APIError (body : string)           (* Exception(f"API error: ...") *)
| JSONDecodeError                    (* response.json() on a non-JSON body *)
| KeyError (key : string).

Inductive result (A : Type) :=
| Ok (a : A)
| Raise (e : exn).
Arguments Ok {A} a.
Arguments Raise {A} e.

(** The search endpoint: the [n]-th request of the session with parameters
    [p] receives [srv n p]. *)
Definition search_server := nat -> params -> search_response.

(* ------------------------------------------------------------------ *)
(** ** [get_mentions] *)

(** [{u['id']: u for u in json_response.get('includes', {}).get('users', [])}] *)
Definition users_list (j : search_json) : list user :=
  match j_includes j with
  | Some inc => default [] (inc_users inc)
  | None => []
  end.

Definition users_dict (l : list user) : gmap string user :=
  foldl (fun m u => <[u_id u := u]> m) ∅ l.

(** [dict.update]: the argument's entries win. *)
Definition dict_update (all_users users : gmap string user) : gmap string user :=
  users ∪ all_users.

(** ['next_token' in json_response.get('meta', {})] and its value. *)
Definition meta_next_token (j : search_json) : option string :=
  match j_meta j with
  | Some m => next_token m
  | None => None
  end.

Definition set_next_token (p : params) (t : string) : params :=
  mk_params (p_query p) (p_max_results p) (Some t).

(** The end state of a session: what the call returned or raised, the
    number of requests issued and the number of loop iterations begun. *)
Record session := mk_session {
  outcome : result (list tweet * gmap string user);
  requests : nat;
  iterations : nat
}.

(** [for _ in range(max_pages): ...]; [fuel] counts the iterations left,
    [n] the requests issued so far, [it] the iterations begun. *)
Fixpoint mentions_loop (srv : search_server) (fuel : nat) (n it : nat)
    (p : params) (all_tweets : list tweet) (all_users : gmap string user)
    : session :=
  match fuel with
  | O => mk_session (Ok (all_tweets, all_users)) n it
  | S fuel' =>
      let it' := S it in
      let r1 := srv n p in
      (* if response.status_code == 429: sleep; retry once
         elif response.status_code != 200: raise *)
      let step :=
        if Z.eqb (status_code r1) 429 then inl (srv (S n) p, S (S n))
        else if negb (Z.eqb (status_code r1) 200)
             then inr (CannotFetch (text r1))
             else inl (r1, S n) in
      match step with
      | inr e => mk_session (Raise e) (S n) it'
      | inl (response, n') =>
          match json_body response with
          | None => mk_session (Raise JSONDecodeError) n' it'
          | Some j =>
              let tweets := default [] (j_data j) in
              let all_tweets' := all_tweets ++ tweets in
              let all_users' := dict_update all_users (users_dict (users_list j)) in
              match meta_next_token j with
              | Some t =>
                  mentions_loop srv fuel' n' it' (set_next_token p t)
                    all_tweets' all_users'
              | None => mk_session (Ok (all_tweets', all_users')) n' it'
              end
          end
      end
  end.

(** [get_mentions(keyword, bearer_token, max_results=100, max_pages=100)];
    the bearer token only reaches the request headers. *)
Definition get_mentions (srv : search_server) (keyword : string)
    (max_results max_pages : Z) : session :=
  mentions_loop srv (Z.to_nat max_pages) 0 0
    (mk_params keyword max_results None) [] ∅.

(* ------------------------------------------------------------------ *)
(** ** The tag classifier and the rows of [keyword2csv] *)

(** Python's [\s] on a [str]: the ASCII whitespace 9..13 and 28..32, and,
    reading the remaining bytes as Latin-1 code points, U+0085 and U+00A0. *)
Definition is_space (c : ascii) : bool :=
  let n := nat_of_ascii c in
  ((9 <=? n) && (n <=? 13))%nat || ((28 <=? n) && (n <=? 32))%nat
  || (n =? 133)%nat || (n =? 160)%nat.

Fixpoint take_while (f : ascii -> bool) (s : string) : string :=
  match s with
  | EmptyString => EmptyString
  | String c s' => if f c then String c (take_while f s') else EmptyString
  end.

Fixpoint drop_while (f : ascii -> bool) (s : string) : string :=
  match s with
  | EmptyString => EmptyString
  | String c s' => if f c then drop_while f s' else s
  end.

Definition is_empty (s : string) : bool :=
  match s with EmptyString => true | _ => false end.

(** [re.search(r'@([^\s]+)', text).group(1)]: the leftmost ['@'] followed by
    a non-space character; the greedy group takes the whole non-space run. *)
Fixpoint mention_search (s : string) : option string :=
  match s with
  | EmptyString => None
  | String c s' =>
      let g := take_while (fun c => negb (is_space c)) s' in
      if Ascii.eqb c "@"%char && negb (is_empty g) then Some g
      else mention_search s'
  end.

Definition handle_char (c : ascii) : bool :=
  negb (Ascii.eqb c ":"%char) && negb (is_space c).

(** [re.search(r'RT @([^:\s]+):', text).group(1)]: at the leftmost position
    where ["RT @"] starts a match.  The greedy group can only succeed with
    the whole run of handle characters, since a shorter one is followed by
    a handle character and not by [':']. *)
Definition retweet_at (s : string) : option string :=
  if String.prefix "RT @" s then
    let rest := substring 4 (String.length s - 4) s in
    let g := take_while handle_char rest in
    match drop_while handle_char rest with
    | String d _ =>
        if negb (is_empty g) && Ascii.eqb d ":"%char then Some g else None
    | EmptyString => None
    end
  else None.

Fixpoint retweet_search (s : string) : option string :=
  match s with
  | EmptyString => None
  | String c s' =>
      match retweet_at s with
      | Some g => Some g
      | None => retweet_search s'
      end
  end.

(** Lines 91-100 of [keyword2csv]: the pair [(tag, source)]. *)
Definition classify (tweet_content : string) : string * string :=
  let '(tag, source) := (""%string, ""%string) in
  let '(tag, source) :=
    match mention_search tweet_content with
    | Some h => ("mention"%string, h)
    | None => (tag, source)
    end in
  match retweet_search tweet_content with
  | Some h => ("retweet"%string, h)
  | None => (tag, source)
  end.

(** A CSV data row: (tweet_id, target, source, author_id, tag, keyword,
    created_at, location, tweet_content). *)
Definition row : Type :=
  (string * string * string * string * string * string * string * string * string)%type.

Definition row_of (users : gmap string user) (keyword : string) (tw : tweet) : row :=
  let author_id := t_author_id tw in
  let target :=
    match users !! author_id with Some u => u_username u | None => "unknown"%string end in
  let location :=
    match users !! author_id with
    | Some u => default "unknown"%string (u_location u)
    | None => "unknown"%string
    end in
  let '(tag, source) := classify (t_text tw) in
  (t_id tw, target, source, author_id, tag, keyword, t_created_at tw, location, t_text tw).

(** [nodes = set(); for tweet in tweets: ...; nodes.add(...)] *)
Definition nodes (tweets : list tweet) (users : gmap string user) (keyword : string)
    : gset row :=
  foldl (fun s tw => {[row_of users keyword tw]} ∪ s) ∅ tweets.

Definition csv_header : list string :=
  ["tweet_Id"; "Author_Username"; "Source_of_Tweet"; "Author_id"; "Tag";
   "Keyword"; "Created_at"; "Location"; "Tweet_Content"]%string.

(** The file [TweetsWith_{keyword}.csv]: the header, then [writer.writerows(nodes)].
    A Python set is iterated in an order fixed by string hashing, which is
    randomised per process, so the model admits every enumeration of the
    set as the data rows. *)
Definition keyword2csv (tweets : list tweet) (users : gmap string user)
    (keyword : string) (header : list string) (rows : list row) : Prop :=
  header = csv_header ∧ rows ≡ₚ elements (nodes tweets users keyword).

(* ------------------------------------------------------------------ *)
(** ** [get_users] *)

(** A response of [/2/users/by]: [u_body = None] when the body is not JSON,
    [Some None] when it has no ['data'] key. *)
Record users_response := mk_users_response {
  ur_status : Z;
  ur_text : string;
  ur_body : option (option (list user))
}.

(** The [n]-th request of the session, for the batch [ids], receives [srv n ids]. *)
Definition users_server := nat -> list string -> users_response.

(** [range(start, stop, step)] for [step > 0]; [fuel] bounds the length. *)
Fixpoint range_step (fuel : nat) (i stop step : nat) : list nat :=
  match fuel with
  | O => []
  | S f => if (i <? stop)%nat then i :: range_step f (i + step) stop step else []
  end.

Definition py_range (start stop step : nat) : list nat :=
  range_step (stop - start) start stop step.

(** [l[i:j]] for [0 <= i <= j]. *)
Definition slice {A} (l : list A) (i j : nat) : list A := take (j - i) (drop i l).

Definition batch_size : nat := 100.

Fixpoint users_loop (srv : users_server) (user_ids : list string) (starts : list nat)
    (n : nat) (all_users_data : list user) : result (list user) * list (list string) :=
  match starts with
  | [] => (Ok all_users_data, [])
  | i :: starts' =>
      let batch_ids := slice user_ids i (i + batch_size) in
      let response := srv n batch_ids in
      if negb (Z.eqb (ur_status response) 200)
      then (Raise (APIError (ur_text response)), [batch_ids])
      else match ur_body response with
           | None => (Raise JSONDecodeError, [batch_ids])
           | Some None => (Raise (KeyError "data"), [batch_ids])
           | Some (Some d) =>
               let '(o, log) := users_loop srv user_ids starts' (S n) (all_users_data ++ d) in
               (o, batch_ids :: log)
           end
  end.

(** [get_users(user_ids, bearer_token)]: what it returns or raises, and the
    batches it requested, in order. *)
Definition get_users (srv : users_server) (user_ids : list string)
    : result (list user) * list (list string) :=
  users_loop srv user_ids (py_range 0 (List.length user_ids) batch_size) 0 [].

(** The batches [user_ids[i:i+batch_size]] for [i in range(0, len(user_ids), batch_size)]. *)
Definition batches (user_ids : list string) : list (list string) :=
  map (fun i => slice user_ids i (i + batch_size)) (py_range 0 (List.length user_ids) batch_size).

(** The ['data'] array of a users response, [[]] when there is none. *)
Definition users_data (r : users_response) : list user :=
  match ur_body r with Some (Some d) => d | _ => [] end.

(* ------------------------------------------------------------------ *)
(** ** Reading the accumulated result *)

(** The items of the pages [n .. n+m-1], in page order. *)
Definition pages_tweets (body : nat -> search_json) (n m : nat) : list tweet :=
  List.concat (map (fun k => default [] (j_data (body k))) (seq n m)).

(** The author index after merging the pages [n .. n+m-1] into [acc]. *)
Definition pages_users (body : nat -> search_json) (n m : nat)
    (acc : gmap string user) : gmap string user :=
  foldl (fun u k => dict_update u (users_dict (users_list (body k)))) acc (seq n m).

(** All author records of the pages [n .. n+m-1], in arrival order. *)
Definition pages_user_records (body : nat -> search_json) (n m : nat) : list user :=
  List.concat (map (fun k => users_list (body k)) (seq n m)).

(** Last-write-wins: the last record of [l] carrying the identifier [id]. *)
Fixpoint last_by_id (id : string) (l : list user) : option user :=
  match l with
  | [] => None
  | u :: l' =>
      match last_by_id id l' with
      | Some v => Some v
      | None => if String.eqb (u_id u) id then Some u else None
      end
  end.

(** The JSON bodies the loop accumulates, read off the server: the
    iteration that starts at request [n] with parameters [p] keeps the body
    of [srv n p] when it is a 200, and the body of the retry [srv (S n) p]
    when [srv n p] is a 429. *)
Definition accepted_page (srv : search_server) (n : nat) (p : params) (j : search_json) : Prop :=
  (status_code (srv n p) = 200 /\ json_body (srv n p) = Some j) \/
  (status_code (srv n p) = 429 /\ json_body (srv (S n) p) = Some j).

(** The first request of the next iteration. *)
Definition next_request (srv : search_server) (n : nat) (p : params) : nat :=
  if Z.eqb (status_code (srv n p)) 429 then S (S n) else S n.

(** [js] is the sequence of bodies accepted by consecutive iterations, the
    first one starting at request [n] with parameters [p]; every body but
    the last carries the cursor that the next iteration sends. *)
Fixpoint page_chain (srv : search_server) (n : nat) (p : params) (js : list search_json) : Prop :=
  match js with
  | [] => True
  | j :: rest =>
      accepted_page srv n p j /\
      match rest with
      | [] => True
      | _ :: _ =>
          exists t, meta_next_token j = Some t /\
                    page_chain srv (next_request srv n p) (set_next_token p t) rest
      end
  end.

(** The items and the author records of a sequence of bodies, in order. *)
Definition chain_tweets (js : list search_json) : list tweet :=
  List.concat (map (fun j => default [] (j_data j)) js).

Definition chain_user_records (js : list search_json) : list user :=
  List.concat (map users_list js).

(* ------------------------------------------------------------------ *)
(** ** [create_url] and [urllib.parse.urlencode]

    A Python [str] is modelled as its list of code points ([pystr]);
    [urlencode] quotes the UTF-8 encoding of each key and value with
    [quote_plus] (safe characters: none beyond the always-safe ones), and
    the strict UTF-8 encoder raises [UnicodeEncodeError] on a lone
    surrogate. *)

Definition pystr : Type := list Z.

(** The [str] of an ASCII literal of the source. *)
Definition pystr_of (s : string) : pystr :=
  map (fun c => Z.of_nat (nat_of_ascii c)) (list_ascii_of_string s).

Definition is_surrogate (c : Z) : bool := (0xD800 <=? c) && (c <=? 0xDFFF).

(** [str.encode('utf-8')] on one code point: [None] is the
    [UnicodeEncodeError] raised on a surrogate. *)
Definition utf8_encode_char (c : Z) : option (list Z) :=
  if c <? 0x80 then Some [c]
  else if c <? 0x800 then Some [0xC0 + c / 64; 0x80 + c mod 64]
  else if c <? 0x10000 then
    if is_surrogate c then None
    else Some [0xE0 + c / 4096; 0x80 + (c / 64) mod 64; 0x80 + c mod 64]
  else Some [0xF0 + c / 262144; 0x80 + (c / 4096) mod 64; 0x80 + (c / 64) mod 64;
             0x80 + c mod 64].

Fixpoint utf8_encode (s : pystr) : option (list Z) :=
  match s with
  | [] => Some []
  | c :: s' =>
      match utf8_encode_char c, utf8_encode s' with
      | Some b, Some bs => Some (b ++ bs)
      | _, _ => None
      end
  end.

(** [urllib.parse._ALWAYS_SAFE]: ASCII letters, digits and [_.-~]. *)
Definition always_safe_byte (b : nat) : bool :=
  ((65 <=? b) && (b <=? 90))%nat || ((97 <=? b) && (b <=? 122))%nat
  || ((48 <=? b) && (b <=? 57))%nat
  || (b =? 95)%nat || (b =? 46)%nat || (b =? 45)%nat || (b =? 126)%nat.

(** The upper-case hexadecimal digit of [d < 16] (['%{:02X}']). *)
Definition hex_digit (d : nat) : ascii :=
  ascii_of_nat (if (d <? 10)%nat then 48 + d else 55 + d)%nat.

(** One byte of [quote_plus]: a space becomes ['+'] (quoted with [safe=' ']
    and then replaced), an always-safe byte stays, any other byte is
    [%XX]. *)
Definition quote_byte (b : nat) : string :=
  if (b =? 32)%nat then "+"%string
  else if always_safe_byte b then String (ascii_of_nat b) EmptyString
  else String "%"%char (String (hex_digit (b / 16)) (String (hex_digit (b mod 16)) EmptyString)).

Fixpoint quote_bytes (l : list nat) : string :=
  match l with
  | [] => EmptyString
  | b :: l' => (quote_byte b ++ quote_bytes l')%string
  end.

(** [urllib.parse.quote_plus(s)] on a [str]: encode, then quote the bytes. *)
Definition quote_plus (s : pystr) : option string :=
  match utf8_encode s with
  | Some bs => Some (quote_bytes (map Z.to_nat bs))
  | None => None
  end.

Fixpoint join_with (sep : string) (l : list string) : string :=
  match l with
  | [] => EmptyString
  | [x] => x
  | x :: l' => (x ++ sep ++ join_with sep l')%string
  end.

(** The [k=v] items of [urlencode], each key quoted before its value; the
    first encoding error is raised. *)
Fixpoint urlencode_items (kvs : list (pystr * pystr)) : option (list string) :=
  match kvs with
  | [] => Some []
  | (k, v) :: kvs' =>
      match quote_plus k with
      | None => None
      | Some k' =>
          match quote_plus v with
          | None => None
          | Some v' =>
              match urlencode_items kvs' with
              | None => None
              | Some l => Some ((k' ++ "=" ++ v')%string :: l)
              end
          end
      end
  end.

(** [urllib.parse.urlencode(query_params)] for a dict of [str] values, in
    insertion order. *)
Definition urlencode (kvs : list (pystr * pystr)) : option string :=
  match urlencode_items kvs with
  | Some l => Some (join_with "&" l)
  | None => None
  end.

Definition counts_endpoint : string := "https://api.twitter.com/2/tweets/counts/all".

(** [create_url(query, granularity, start_time, end_time)]; [None] is the
    [UnicodeEncodeError] raised by [urlencode]. *)
Definition create_url (query granularity start_time end_time : pystr) : option string :=
  match urlencode [(pystr_of "query", query); (pystr_of "granularity", granularity);
                   (pystr_of "start_time", start_time); (pystr_of "end_time", end_time)] with
  | Some q => Some (counts_endpoint ++ "?" ++ q)%string
  | None => None
  end.

(** Reading a query string back as [application/x-www-form-urlencoded]:
    [str.split] on a separator, the split at the first ['='], the decoding
    of ['+'] and [%XX] into bytes, and the decoding of well-formed UTF-8
    (continuation bytes are not checked). *)
Fixpoint split_on (sep : ascii) (s : string) : list string :=
  match s with
  | EmptyString => [EmptyString]
  | String c r =>
      if Ascii.eqb c sep then EmptyString :: split_on sep r
      else match split_on sep r with
           | [] => [String c EmptyString]
           | x :: xs => String c x :: xs
           end
  end.

Fixpoint break_at (sep : ascii) (s : string) : option (string * string) :=
  match s with
  | EmptyString => None
  | String c r =>
      if Ascii.eqb c sep then Some (EmptyString, r)
      else match break_at sep r with
           | Some (a, b) => Some (String c a, b)
           | None => None
           end
  end.

Definition hex_val (c : ascii) : option nat :=
  let n := nat_of_ascii c in
  if ((48 <=? n) && (n <=? 57))%nat then Some (n - 48)%nat
  else if ((65 <=? n) && (n <=? 70))%nat then Some (n - 55)%nat
  else if ((97 <=? n) && (n <=? 102))%nat then Some (n - 87)%nat
  else None.

Fixpoint form_decode (s : string) : option (list nat) :=
  match s with
  | EmptyString => Some []
  | String c r =>
      if Ascii.eqb c "+"%char then cons 32%nat <$> form_decode r
      else if Ascii.eqb c "%"%char then
        match r with
        | String h1 (String h2 r') =>
            match hex_val h1, hex_val h2 with
            | Some a, Some b => cons (16 * a + b)%nat <$> form_decode r'
            | _, _ => None
            end
        | _ => None
        end
      else cons (nat_of_ascii c) <$> form_decode r
  end.

Fixpoint utf8_decode (l : list Z) : option pystr :=
  match l with
  | [] => Some []
  | b1 :: r1 =>
      if b1 <? 0x80 then cons b1 <$> utf8_decode r1
      else if b1 <? 0xC0 then None
      else if b1 <? 0xE0 then
        match r1 with
        | b2 :: r2 => cons ((b1 - 0xC0) * 64 + (b2 - 0x80)) <$> utf8_decode r2
        | _ => None
        end
      else if b1 <? 0xF0 then
        match r1 with
        | b2 :: b3 :: r3 =>
            cons (((b1 - 0xE0) * 64 + (b2 - 0x80)) * 64 + (b3 - 0x80)) <$> utf8_decode r3
        | _ => None
        end
      else
        match r1 with
        | b2 :: b3 :: b4 :: r4 =>
            cons ((((b1 - 0xF0) * 64 + (b2 - 0x80)) * 64 + (b3 - 0x80)) * 64 + (b4 - 0x80))
              <$> utf8_decode r4
        | _ => None
        end
  end.

(** A form-encoded component read back as a [str]. *)
Definition form_decode_str (s : string) : option pystr :=
  match form_decode s with
  | Some bs => utf8_decode (map Z.of_nat bs)
  | None => None
  end.

Definition decode_pair (kv : string) : option (pystr * pystr) :=
  match break_at "=" kv with
  | Some (k, v) =>
      match form_decode_str k, form_decode_str v with
      | Some k', Some v' => Some (k', v')
      | _, _ => None
      end
  | None => None
  end.

(** A query string read back as its list of pairs, in order. *)
Definition parse_qs (q : string) : option (list (pystr * pystr)) :=
  mapM decode_pair (split_on "&" q).

(** [c] occurs in [s]. *)
Fixpoint has_char (c : ascii) (s : string) : bool :=
  match s with
  | EmptyString => false
  | String d s' => Ascii.eqb d c || has_char c s'
  end.

(** A [str] (every code point in [0, 0x10FFFF]) and one without lone
    surrogates. *)
Definition py_str (s : pystr) : Prop := Forall (fun c => 0 <= c <= 0x10FFFF) s.

Definition no_surrogate (s : pystr) : bool := forallb (fun c => negb (is_surrogate c)) s.

(* ------------------------------------------------------------------ *)
(** ** The bar labels of [get_tweet_counts] *)

(** Python's [s[i:j]]: negative bounds count from the end, every bound is
    clamped to [0, len(s)], an omitted bound is the start or the end. *)
Definition py_slice (s : string) (i j : option Z) : string :=
  let L := Z.of_nat (String.length s) in
  let norm (d : Z) (x : option Z) :=
    match x with
    | None => d
    | Some x => if x <? 0 then Z.max 0 (L + x) else Z.min x L
    end in
  let a := norm 0 i in
  let b := norm L j in
  if a <? b then substring (Z.to_nat a) (Z.to_nat (b - a)) s else EmptyString.

(** The bar label of a bucket's [data['start']] for a granularity (lines
    295-306). *)
Definition bar_label (granularity start : string) : string :=
  if String.eqb granularity "hour" then py_slice start (Some 11) (Some 16)
  else if String.eqb granularity "day" then py_slice start None (Some 10)
  else py_slice start (Some (-10)) (Some (-5)).

(* ------------------------------------------------------------------ *)
(** ** [userdata2csv] *)

(** A decoded JSON value; an object lists its entries, whose keys are
    pairwise distinct as in a Python dict. *)
Local Unset Elimination Schemes.
Inductive json_value :=
  | JStr (s : string)
  | JInt (z : Z)
  | JBool (b : bool)
  | JNull
  | JArr (l : list json_value)
  | JObj (kvs : list (string * json_value)).
Local Set Elimination Schemes.

Fixpoint dict_lookup (k : string) (kvs : list (string * json_value)) : option json_value :=
  match kvs with
  | [] => None
  | (k', v) :: kvs' => if String.eqb k k' then Some v else dict_lookup k kvs'
  end.

Inductive csv_error := CsvKeyError (key : string) | CsvTypeError.

(** [v[k]]: a missing key raises [KeyError(k)]; subscripting a string, a
    number, a list, [None] or a bool with a string raises [TypeError]. *)
Definition getitem (v : json_value) (k : string) : csv_error + json_value :=
  match v with
  | JObj kvs =>
      match dict_lookup k kvs with Some x => inr x | None => inl (CsvKeyError k) end
  | _ => inl CsvTypeError
  end.

Definition csv_bind {A B} (m : csv_error + A) (f : A -> csv_error + B) : csv_error + B :=
  match m with inl e => inl e | inr a => f a end.

Notation "x <-- m ; f" := (csv_bind m (fun x => f))
  (at level 20, m at level 100, f at level 200, right associativity).

Definition userdata_header : list string :=
  ["id"; "username"; "name"; "created_at"; "location"; "verified"; "description";
   "followers_count"; "following_count"; "tweet_count"; "listed_count"].

(** Lines 159-170: [public_metrics = user['public_metrics']], then the list
    display, whose items are evaluated from left to right. *)
Definition user_row (user : json_value) : csv_error + list json_value :=
  public_metrics <-- getitem user "public_metrics";
  id <-- getitem user "id";
  username <-- getitem user "username";
  name <-- getitem user "name";
  created_at <-- getitem user "created_at";
  location <-- getitem user "location";
  verified <-- getitem user "verified";
  description <-- getitem user "description";
  followers_count <-- getitem public_metrics "followers_count";
  following_count <-- getitem public_metrics "following_count";
  tweet_count <-- getitem public_metrics "tweet_count";
  listed_count <-- getitem public_metrics "listed_count";
  inr [id; username; name; created_at; location; verified; description;
       followers_count; following_count; tweet_count; listed_count].

(** [for user in users_data: ...; writer.writerow(row)]: the rows written
    and the exception that ends the loop, if any. *)
Fixpoint write_user_rows (users_data : list json_value)
    : option csv_error * list (list json_value) :=
  match users_data with
  | [] => (None, [])
  | user :: users' =>
      match user_row user with
      | inl e => (Some e, [])
      | inr r => let '(e, rows) := write_user_rows users' in (e, r :: rows)
      end
  end.

(** [userdata2csv(users_data, filename)]: the file is opened with mode
    ['w'], so it holds exactly the rows written before the call returned or
    raised; cells are the values handed to [csv.writer]. *)
Definition userdata2csv (users_data : list json_value)
    : option csv_error * list (list json_value) :=
  let '(e, rows) := write_user_rows users_data in
  (e, map JStr userdata_header :: rows).

(* ------------------------------------------------------------------ *)
(** ** [analysis.splitbylanguage] *)

Section SplitByLanguage.

(** [langdetect.detect]: the language code, or [None] when it raises. *)
Variable detect : string -> option string.

(** A cell of the content column: [None] for a missing value (NaN). *)
Definition cell : Type := option string.

Definition detect_language (text : string) : string :=
  match detect text with Some l => l | None => "Unknown"%string end.

(** [detect_language(x) if pd.notnull(x) else 'Unknown'] *)
Definition language_of (x : cell) : string :=
  match x with Some t => detect_language t | None => "Unknown"%string end.

Definition notnull (x : cell) : bool := match x with Some _ => true | None => false end.

(** [groupby('language')[col].count()] for the group [l]: the non-null
    cells of the rows whose language is [l]. *)
Definition group_count (col : list cell) (l : string) : nat :=
  List.length (List.filter (fun x => notnull x && String.eqb (language_of x) l) col).

(** One group per language of the column; the order in which [groupby]
    lists them is immaterial, since the next step re-sorts. *)
Definition language_groups (col : list cell) : list string :=
  remove_dups (map language_of col).

Definition language_counts (col : list cell) : list (string * nat) :=
  map (fun l => (l, group_count col l)) (language_groups col).

(** [.sort_values(ascending=False)]: a reordering of the groups by
    non-increasing count; the default sort is not stable, so groups with
    equal counts may come in any order. *)
Definition splitbylanguage (col : list cell) (out : list (string * nat)) : Prop :=
  out ≡ₚ language_counts col /\ Sorted (fun a b => b.2 <= a.2)%nat out.

End SplitByLanguage.

(* ------------------------------------------------------------------ *)
(** ** Auxiliary readers *)

(** Every character of [s] satisfies [f]. *)
Fixpoint all_chars (f : ascii -> bool) (s : string) : bool :=
  match s with
  | EmptyString => true
  | String c s' => f c && all_chars f s'
  end.

(** A key absent from a dict, and the value of a present one. *)
Definition missing (kvs : list (string * json_value)) (k : string) : bool :=
  match dict_lookup k kvs with Some _ => false | None => true end.

Definition field (kvs : list (string * json_value)) (k : string) : json_value :=
  default JNull (dict_lookup k kvs).

(* ------------------------------------------------------------------ *)
(** ** Sample sessions *)

Definition sample_tweet (id : string) : tweet :=
  mk_tweet id "42" "RT @nasa: liftoff" "2024-05-01T00:00:00.000Z".

Definition alice_paris : user := mk_user "42" "alice" (Some "Paris").
Definition alice_lyon : user := mk_user "42" "alice" (Some "Lyon").
Definition bob : user := mk_user "7" "bob" None.

Definition page_json (ts : list tweet) (us : list user) (tok : option string)
    : search_json :=
  mk_search_json (Some ts) (Some (mk_includes (Some us))) (Some (mk_meta tok)).

(** The JSON error body of a 429 or 503 ([title], [detail], [status]):
    no [data], [includes] or [meta] key. *)
Definition error_json : search_json := mk_search_json None None None.

Definition ok_response (j : search_json) : search_response :=
  mk_search_response 200 "" (Some j).

Definition too_many_requests : search_response :=
  mk_search_response 429 "Too Many Requests" (Some error_json).

(** Every request is rate limited. *)
Definition srv_always_429 : search_server := fun _ _ => too_many_requests.

(** Page 1 succeeds with a cursor; page 2 is rate limited and its retry
    gets a 503. *)
Definition srv_429_then_503 : search_server := fun n _ =>
  match n with
  | O => ok_response (page_json [sample_tweet "1"] [alice_paris] (Some "b26v89c19zqg8o3f"))
  | 1%nat => too_many_requests
  | _ => mk_search_response 503 "Service Unavailable" (Some error_json)
  end.

(** The first request is rate limited (with a body that has items), the
    retry succeeds. *)
Definition srv_429_then_200 : search_server := fun n _ =>
  match n with
  | O => mk_search_response 429 "" (Some (page_json [sample_tweet "0"] [bob] None))
  | _ => ok_response (page_json [sample_tweet "1"] [alice_paris] None)
  end.

(** Two pages of two items; the second page has no cursor and a newer
    record of author 42. *)
Definition two_pages (k : nat) : search_json :=
  match k with
  | O => page_json [sample_tweet "1"; sample_tweet "2"] [alice_paris; bob] (Some "t1")
  | _ => page_json [sample_tweet "3"; sample_tweet "4"] [alice_lyon] None
  end.

Definition srv_two_pages : search_server := fun n _ => ok_response (two_pages n).

(** The first request is rate limited, with a body naming another author;
    the retry gets the first page of [two_pages]; every later request gets
    a page with a cursor and a newer record of author 42, so that
    [max_pages = 2] cuts the session off. *)
Definition carol : user := mk_user "99" "carol" None.

Definition srv_retry_cutoff : search_server := fun n _ =>
  match n with
  | O => mk_search_response 429 "" (Some (page_json [sample_tweet "0"] [carol] None))
  | 1%nat => ok_response (two_pages 0)
  | _ => ok_response (page_json [sample_tweet "5"] [alice_lyon] (Some "t2"))
  end.

(** A server that always has a next page. *)
Definition endless (k : nat) : search_json :=
  page_json [sample_tweet "1"] [alice_paris] (Some "next").

Definition srv_endless : search_server := fun n _ => ok_response (endless n).

(** The profiles endpoint answers every batch with one record per id. *)
Definition srv_users_ok : users_server := fun _ ids =>
  mk_users_response 200 "" (Some (Some (map (fun id => mk_user id id None) ids))).

(** The profiles endpoint rate limits the second batch. *)
Definition srv_users_429 : users_server := fun n ids =>
  match n with
  | O => srv_users_ok n ids
  | _ => mk_users_response 429 "Too Many Requests" (Some None)
  end.

Definition sample_ids (n : nat) : list string :=
  map (fun _ => "2244994945"%string) (seq 0 n).

Definition srv_users_no_data : users_server := fun n ids =>
  match n with
  | O => srv_users_ok n ids
  | _ => mk_users_response 200 "{}" (Some None)
  end.

(** A language detector that knows two words and raises on anything else. *)
Definition sample_detect (t : string) : option string :=
  if String.eqb t "bonjour" then Some "fr"%string
  else if String.eqb t "hello" then Some "en"%string else None.

Definition sample_column : list cell :=
  [Some "hello"; None; Some "bonjour"; Some "hello"; Some "?!"]%string.

Definition sample_languages : list (string * nat) :=
  [("en", 2); ("fr", 1); ("Unknown", 1)]%string%nat.

(* ------------------------------------------------------------------ *)
(** ** Lemmas on [get_mentions] *)

Section MentionsLoop.
Variable srv : search_server.

  (** A page whose first request is answered by a 200 with a JSON body. *)
Lemma mentions_loop_ok_page f n it p acc_t acc_u j :
    status_code (srv n p) = 200 ->
    json_body (srv n p) = Some j ->
    mentions_loop srv (S f) n it p acc_t acc_u =
      let acc_t' := acc_t ++ default [] (j_data j) in
      let acc_u' := dict_update acc_u (users_dict (users_list j)) in
      match meta_next_token j with
      | Some t => mentions_loop srv f (S n) (S it) (set_next_token p t) acc_t' acc_u'
      | None => mk_session (Ok (acc_t', acc_u')) (S n) (S it)
      end.
  Proof. intros Hs Hj. simpl. rewrite Hs. simpl. rewrite Hj. reflexivity. Qed.

  (** [m] successive 200 pages, each with a continuation cursor. *)
Lemma mentions_loop_pages (body : nat -> search_json) m :
    forall f n it p acc_t acc_u,
    (forall k q, (n <= k < n + m)%nat ->
       status_code (srv k q) = 200 /\ json_body (srv k q) = Some (body k)) ->
    (forall k, (n <= k < n + m)%nat -> meta_next_token (body k) <> None) ->
    exists p',
      mentions_loop srv (m + f) n it p acc_t acc_u =
      mentions_loop srv f (n + m) (it + m) p'
        (acc_t ++ pages_tweets body n m) (pages_users body n m acc_u).
  Proof.
    induction m as [|m IH]; intros f n it p acc_t acc_u Hok Htok.
    - exists p. unfold pages_tweets, pages_users. simpl.
      rewrite app_nil_r, !Nat.add_0_r. reflexivity.
    - destruct (Hok n p) as [Hs Hj]; [lia|].
      specialize (Htok n) as Hn. destruct (meta_next_token (body n)) as [t|] eqn:Ht;
        [|exfalso; apply Hn; [lia|reflexivity]].
      rewrite Nat.add_succ_l, (mentions_loop_ok_page _ _ _ _ _ _ _ Hs Hj), Ht.
      cbv zeta.
      destruct (IH f (S n) (S it) (set_next_token p t)
                  (acc_t ++ default [] (j_data (body n)))
                  (dict_update acc_u (users_dict (users_list (body n)))))
        as [p' Hp'].
      + intros k q Hk. apply Hok. lia.
      + intros k Hk. apply Htok. lia.
      + exists p'. rewrite Hp'.
        replace (S n + m)%nat with (n + S m)%nat by lia.
        replace (S it + m)%nat with (it + S m)%nat by lia.
        unfold pages_tweets. simpl. rewrite app_assoc. reflexivity.
  Qed.

  (** [P] pages of 200 responses, the last one without a cursor. *)
Lemma mentions_loop_complete (body : nat -> search_json) P f n it p acc_t acc_u :
    (1 <= P)%nat -> (P <= f)%nat ->
    (forall k q, (n <= k < n + P)%nat ->
       status_code (srv k q) = 200 /\ json_body (srv k q) = Some (body k)) ->
    (forall k, (n <= k < n + P)%nat -> meta_next_token (body k) = None <-> k = (n + P - 1)%nat) ->
    mentions_loop srv f n it p acc_t acc_u =
      mk_session (Ok (acc_t ++ pages_tweets body n P, pages_users body n P acc_u))
        (n + P) (it + P).
  Proof.
    intros H1 HPf Hok Htok.
    destruct P as [|P0]; [lia|].
    replace f with (P0 + S (f - S P0))%nat by lia.
    destruct (mentions_loop_pages body P0 (S (f - S P0)) n it p acc_t acc_u)
      as [p' ->].
    - intros k q Hk. apply Hok. lia.
    - intros k Hk Hnone. apply Htok in Hnone; lia.
    - destruct (Hok (n + P0)%nat p') as [Hs Hj]; [lia|].
      rewrite (mentions_loop_ok_page _ _ _ _ _ _ _ Hs Hj).
      assert (Hn : meta_next_token (body (n + P0)%nat) = None) by (apply Htok; lia).
      rewrite Hn. cbv zeta.
      unfold pages_tweets, pages_users. rewrite seq_S, map_app, concat_app, foldl_app.
      simpl. rewrite app_nil_r, app_assoc.
      replace (S (n + P0))%nat with (n + S P0)%nat by lia.
      replace (S (it + P0))%nat with (it + S P0)%nat by lia.
      reflexivity.
  Qed.
End MentionsLoop.

Lemma mentions_loop_bounds srv fuel :
  forall n it p acc_t acc_u,
  (iterations (mentions_loop srv fuel n it p acc_t acc_u) <= it + fuel)%nat /\
  (requests (mentions_loop srv fuel n it p acc_t acc_u) <= n + 2 * fuel)%nat.
Proof.
  induction fuel as [|fuel IH]; intros n it p acc_t acc_u; simpl.
  - lia.
  - repeat case_match; simplify_eq/=; try lia;
      match goal with
      | |- context [mentions_loop srv fuel ?n' ?it' ?p' ?t' ?u'] =>
          destruct (IH n' it' p' t' u'); lia
      end.
Qed.

(** ** Lemmas on the author index *)

Lemma foldl_insert_lookup (l : list user) :
  forall (m : gmap string user) id,
  foldl (fun m u => <[u_id u := u]> m) m l !! id =
  match last_by_id id l with Some v => Some v | None => m !! id end.
Proof.
  induction l as [|u l IH]; intros m id; simpl; [reflexivity|].
  rewrite IH. destruct (last_by_id id l); [reflexivity|].
  destruct (String.eqb_spec (u_id u) id) as [<-|Hne].
  - by rewrite lookup_insert_eq.
  - by rewrite lookup_insert_ne.
Qed.

Lemma dict_update_lookup (m : gmap string user) l id :
  dict_update m (users_dict l) !! id =
  match last_by_id id l with Some v => Some v | None => m !! id end.
Proof.
  unfold dict_update, users_dict. rewrite lookup_union, foldl_insert_lookup.
  rewrite lookup_empty. destruct (last_by_id id l), (m !! id); reflexivity.
Qed.

Lemma last_by_id_app id l1 l2 :
  last_by_id id (l1 ++ l2) =
  match last_by_id id l2 with Some v => Some v | None => last_by_id id l1 end.
Proof.
  induction l1 as [|u l1 IH]; simpl.
  - by destruct (last_by_id id l2).
  - rewrite IH. by destruct (last_by_id id l2).
Qed.

Lemma pages_users_lookup body m :
  forall n acc id,
  pages_users body n m acc !! id =
  match last_by_id id (pages_user_records body n m) with
  | Some v => Some v
  | None => acc !! id
  end.
Proof.
  induction m as [|m IH]; intros n acc id; [reflexivity|].
  change (pages_users body n (S m) acc)
    with (pages_users body (S n) m (dict_update acc (users_dict (users_list (body n))))).
  change (pages_user_records body n (S m))
    with (users_list (body n) ++ pages_user_records body (S n) m).
  rewrite IH, dict_update_lookup, last_by_id_app.
  by destruct (last_by_id id (pages_user_records body (S n) m)).
Qed.

Lemma last_by_id_Some id l u :
  last_by_id id l = Some u -> u_id u = id /\ u ∈ l.
Proof.
  induction l as [|v l IH]; simpl; [discriminate|].
  destruct (last_by_id id l) as [w|].
  - intros [= <-]. destruct IH as [? ?]; [reflexivity|]. split; [done|set_solver].
  - destruct (String.eqb_spec (u_id v) id); intros; simplify_eq; split; [done|set_solver].
Qed.

Lemma last_by_id_is_Some id l :
  is_Some (last_by_id id l) <-> id ∈ u_id <$> l.
Proof.
  induction l as [|v l IH]; simpl.
  - split; [intros [? ?]; discriminate|intros ?%elem_of_nil; done].
  - rewrite elem_of_cons, <-IH. destruct (last_by_id id l).
    + split; [intros; right; eauto|eauto].
    + destruct (String.eqb_spec (u_id v) id) as [<-|Hne].
      * split; eauto.
      * split; [intros [? ?]; discriminate|intros [?|[? ?]]; [congruence|discriminate]].
Qed.

Lemma pages_tweets_length body N m :
  forall n, (forall k, (n <= k < n + m)%nat -> List.length (default [] (j_data (body k))) = N) ->
  List.length (pages_tweets body n m) = (N * m)%nat.
Proof.
  induction m as [|m IH]; intros n HN; [simpl; lia|].
  change (pages_tweets body n (S m))
    with (default [] (j_data (body n)) ++ pages_tweets body (S n) m).
  rewrite length_app, HN, IH; [lia| |lia]. intros k Hk. apply HN. lia.
Qed.

Lemma foldl_dict_update_lookup (js : list search_json) :
  forall (acc : gmap string user) id,
  foldl (fun m j => dict_update m (users_dict (users_list j))) acc js !! id =
  match last_by_id id (chain_user_records js) with Some v => Some v | None => acc !! id end.
Proof.
  induction js as [|j js IH]; intros acc id; [reflexivity|].
  cbn [foldl]. rewrite IH, dict_update_lookup.
  unfold chain_user_records. cbn [map List.concat]. rewrite last_by_id_app.
  by destruct (last_by_id id (List.concat (map users_list js))).
Qed.

(** A session that returns normally has accumulated the bodies of a chain
    of accepted pages, one per iteration. *)
Lemma mentions_loop_chain srv fuel :
  forall n it p acc_t acc_u tweets users,
  outcome (mentions_loop srv fuel n it p acc_t acc_u) = Ok (tweets, users) ->
  exists js,
    page_chain srv n p js /\
    iterations (mentions_loop srv fuel n it p acc_t acc_u) = (it + List.length js)%nat /\
    tweets = acc_t ++ chain_tweets js /\
    users = foldl (fun m j => dict_update m (users_dict (users_list j))) acc_u js.
Proof.
  induction fuel as [|fuel IH]; intros n it p acc_t acc_u tweets users Hout.
  - simpl in Hout. injection Hout as <- <-. exists []. simpl.
    split; [done|]. split; [lia|]. by rewrite app_nil_r.
  - cbn [mentions_loop] in Hout |- *.
    destruct (Z.eqb_spec (status_code (srv n p)) 429) as [H429|H429].
    + destruct (json_body (srv (S n) p)) as [j|] eqn:Hj; [|discriminate].
      assert (Ha : accepted_page srv n p j) by (right; by split).
      assert (Hn : next_request srv n p = S (S n))
        by (unfold next_request; by rewrite H429).
      destruct (meta_next_token j) as [t|] eqn:Ht.
      * destruct (IH _ _ _ _ _ _ _ Hout) as [js [Hc [Hit [-> ->]]]].
        exists (j :: js). split.
        { split; [exact Ha|]. destruct js; [done|]. exists t. rewrite Hn. by split. }
        split; [rewrite Hit; simpl; lia|].
        split; [unfold chain_tweets; simpl; by rewrite app_assoc|reflexivity].
      * simpl in Hout. injection Hout as <- <-. exists [j].
        split; [by split|]. split; [simpl; lia|].
        split; [unfold chain_tweets; simpl; by rewrite app_nil_r|reflexivity].
    + destruct (Z.eqb_spec (status_code (srv n p)) 200) as [H200|H200]; [|discriminate].
      simpl in Hout |- *.
      destruct (json_body (srv n p)) as [j|] eqn:Hj; [|discriminate].
      assert (Ha : accepted_page srv n p j) by (left; by split).
      assert (Hn : next_request srv n p = S n)
        by (unfold next_request; destruct (Z.eqb_spec (status_code (srv n p)) 429); done).
      destruct (meta_next_token j) as [t|] eqn:Ht.
      * destruct (IH _ _ _ _ _ _ _ Hout) as [js [Hc [Hit [-> ->]]]].
        exists (j :: js). split.
        { split; [exact Ha|]. destruct js; [done|]. exists t. rewrite Hn. by split. }
        split; [rewrite Hit; simpl; lia|].
        split; [unfold chain_tweets; simpl; by rewrite app_assoc|reflexivity].
      * simpl in Hout. injection Hout as <- <-. exists [j].
        split; [by split|]. split; [simpl; lia|].
        split; [unfold chain_tweets; simpl; by rewrite app_nil_r|reflexivity].
Qed.

(* ------------------------------------------------------------------ *)
(** ** Claims on [get_mentions] *)

(** C1: when the retry after a 429 is answered by a second 429 whose body
    is the usual JSON error object, [get_mentions] raises nothing: it
    returns normally, after two requests, with an empty result. *)
Theorem get_mentions_second_429_returns :
  get_mentions srv_always_429 "nasa" 100 100 = mk_session (Ok ([], ∅)) 2 1.
Proof. reflexivity. Qed.

(** C2: when page 2 is rate limited and its retry is answered by a 503,
    [get_mentions] raises nothing and returns the items of page 1. *)
Theorem get_mentions_retry_503_returns_prefix :
  get_mentions srv_429_then_503 "nasa" 100 100 =
    mk_session (Ok ([sample_tweet "1"], {[ "42"%string := alice_paris ]})) 3 2.
Proof. vm_compute. reflexivity. Qed.

(** C3: if the server answers the first [P] requests (P at most
    [max_pages]) with 200 pages of [N] items each, all but the last with a
    cursor, [get_mentions] returns the items of the [P] pages concatenated
    in page order, [N * P] items in all. *)
Theorem get_mentions_complete_pages (srv : search_server) keyword max_results max_pages
    (body : nat -> search_json) (P N : nat) :
  (1 <= P)%nat -> Z.of_nat P <= max_pages ->
  (forall k q, (k < P)%nat ->
     status_code (srv k q) = 200 /\ json_body (srv k q) = Some (body k)) ->
  (forall k, (k < P)%nat -> List.length (default [] (j_data (body k))) = N) ->
  (forall k, (k < P)%nat -> meta_next_token (body k) = None <-> k = (P - 1)%nat) ->
  exists users,
    outcome (get_mentions srv keyword max_results max_pages) =
      Ok (pages_tweets body 0 P, users) /\
    List.length (pages_tweets body 0 P) = (N * P)%nat.
Proof.
  intros H1 HP Hok HN Htok. exists (pages_users body 0 P ∅). unfold get_mentions.
  rewrite (mentions_loop_complete srv body P); [| lia | lia | |].
  - split; [reflexivity|]. apply pages_tweets_length. intros k Hk. apply HN. lia.
  - intros k q Hk. apply Hok. lia.
  - intros k Hk. apply Htok. lia.
Qed.

Lemma get_mentions_complete_pages_witness :
  exists users,
    outcome (get_mentions srv_two_pages "nasa" 100 100) =
      Ok (pages_tweets two_pages 0 2, users) /\
    List.length (pages_tweets two_pages 0 2) = (2 * 2)%nat.
Proof.
  apply (get_mentions_complete_pages srv_two_pages "nasa" 100 100 two_pages 2 2).
  - lia.
  - lia.
  - intros k q Hk. split; reflexivity.
  - intros [|[|k]] Hk; [reflexivity|reflexivity|lia].
  - intros [|[|k]] Hk; simpl; split; intros; try discriminate; try reflexivity; lia.
Defined.

(** C4: in an iteration whose request is answered by 429 and whose retry
    is answered by a 200 with JSON body [j], only [j]'s items and users are
    accumulated, once, and the next request is the third of the session
    from this iteration on; the 429 response contributes nothing. *)
Theorem get_mentions_retry_after_429 (srv : search_server) fuel n it p acc_t acc_u j :
  status_code (srv n p) = 429 ->
  status_code (srv (S n) p) = 200 ->
  json_body (srv (S n) p) = Some j ->
  mentions_loop srv (S fuel) n it p acc_t acc_u =
    let acc_t' := acc_t ++ default [] (j_data j) in
    let acc_u' := dict_update acc_u (users_dict (users_list j)) in
    match meta_next_token j with
    | Some t => mentions_loop srv fuel (S (S n)) (S it) (set_next_token p t) acc_t' acc_u'
    | None => mk_session (Ok (acc_t', acc_u')) (S (S n)) (S it)
    end.
Proof. intros H429 H200 Hj. simpl. rewrite H429. simpl. rewrite Hj. reflexivity. Qed.

Lemma get_mentions_retry_after_429_witness :
  get_mentions srv_429_then_200 "nasa" 100 100 =
    mk_session (Ok ([sample_tweet "1"], dict_update ∅ (users_dict [alice_paris]))) 2 1.
Proof.
  unfold get_mentions.
  replace (Z.to_nat 100) with (S 99) by reflexivity.
  rewrite (get_mentions_retry_after_429 srv_429_then_200 99 0 0 _ [] ∅
             (page_json [sample_tweet "1"] [alice_paris] None));
    reflexivity.
Defined.

(** C5: [get_mentions] begins at most [max_pages] iterations and issues at
    most [2 * max_pages] requests on every server; when the first
    [max_pages] requests are answered by 200 pages of [N] items that all
    carry a cursor, it returns their [max_pages * N] items without raising. *)
Theorem get_mentions_page_ceiling (srv : search_server) keyword max_results max_pages
    (body : nat -> search_json) (N : nat) :
  0 < max_pages ->
  (forall srv' : search_server,
     (iterations (get_mentions srv' keyword max_results max_pages) <= Z.to_nat max_pages)%nat /\
     (requests (get_mentions srv' keyword max_results max_pages) <= 2 * Z.to_nat max_pages)%nat) /\
  ((forall k q, (k < Z.to_nat max_pages)%nat ->
      status_code (srv k q) = 200 /\ json_body (srv k q) = Some (body k)) ->
   (forall k, (k < Z.to_nat max_pages)%nat -> List.length (default [] (j_data (body k))) = N) ->
   (forall k, (k < Z.to_nat max_pages)%nat -> meta_next_token (body k) <> None) ->
   exists users,
     outcome (get_mentions srv keyword max_results max_pages) =
       Ok (pages_tweets body 0 (Z.to_nat max_pages), users) /\
     Z.of_nat (List.length (pages_tweets body 0 (Z.to_nat max_pages))) = max_pages * Z.of_nat N).
Proof.
  intros Hpos. split.
  - intros srv'. unfold get_mentions.
    destruct (mentions_loop_bounds srv' (Z.to_nat max_pages) 0 0
                (mk_params keyword max_results None) [] ∅).
    lia.
  - intros Hok HN Htok. unfold get_mentions.
    destruct (mentions_loop_pages srv body (Z.to_nat max_pages) 0 0 0
                (mk_params keyword max_results None) [] ∅) as [p' Hp'].
    + intros k q Hk. apply Hok. lia.
    + intros k Hk. apply Htok. lia.
    + rewrite Nat.add_0_r in Hp'. rewrite Hp'. simpl.
      eexists. split; [reflexivity|].
      rewrite (pages_tweets_length body N); [lia|].
      intros k Hk. apply HN. lia.
Qed.

Lemma get_mentions_page_ceiling_witness :
  exists users,
    outcome (get_mentions srv_endless "nasa" 100 3) =
      Ok (pages_tweets endless 0 3, users) /\
    Z.of_nat (List.length (pages_tweets endless 0 3)) = 3 * Z.of_nat 1.
Proof.
  destruct (get_mentions_page_ceiling srv_endless "nasa" 100 3 endless 1) as [_ H].
  - lia.
  - apply H.
    + intros k q Hk. split; reflexivity.
    + intros k Hk. reflexivity.
    + intros k Hk. discriminate.
Defined.

(** C6: whenever [get_mentions] returns normally, whether its last page
    had no cursor or [max_pages] cut it off, and whether some pages came
    from the retry after a 429, the bodies it kept form a chain of accepted
    pages, one per iteration, starting at request 0 with the caller's
    parameters; its items are their items in order, and its author index
    maps every identifier to the last record carrying it in arrival order
    (last-write-wins), keys every entry by its own [id], and has as key set
    the set of identifiers seen on these pages. *)
Theorem get_mentions_author_index (srv : search_server) keyword max_results max_pages
    tweets (users : gmap string user) :
  outcome (get_mentions srv keyword max_results max_pages) = Ok (tweets, users) ->
  exists js,
    page_chain srv 0 (mk_params keyword max_results None) js /\
    List.length js = iterations (get_mentions srv keyword max_results max_pages) /\
    tweets = chain_tweets js /\
    (forall id, users !! id = last_by_id id (chain_user_records js)) /\
    (forall id u, users !! id = Some u -> u_id u = id) /\
    dom users = list_to_set (u_id <$> chain_user_records js).
Proof.
  intros Hout. unfold get_mentions in *.
  destruct (mentions_loop_chain _ _ _ _ _ _ _ _ _ Hout) as [js [Hc [Hit [-> ->]]]].
  assert (Hl : forall id,
            foldl (fun m j => dict_update m (users_dict (users_list j))) ∅ js !! id =
            last_by_id id (chain_user_records js)).
  { intros id. rewrite foldl_dict_update_lookup, lookup_empty.
    by destruct (last_by_id id (chain_user_records js)). }
  exists js. split; [exact Hc|]. split; [rewrite Hit; lia|]. split; [reflexivity|].
  split; [exact Hl|]. split.
  - intros id u Hu. rewrite Hl in Hu. apply last_by_id_Some in Hu. tauto.
  - apply set_eq. intros id.
    rewrite elem_of_dom, elem_of_list_to_set, Hl. apply last_by_id_is_Some.
Qed.

Lemma get_mentions_author_index_witness :
  exists tweets (users : gmap string user),
    outcome (get_mentions srv_retry_cutoff "nasa" 100 2) = Ok (tweets, users) /\
    exists js,
      page_chain srv_retry_cutoff 0 (mk_params "nasa" 100 None) js /\
      List.length js = iterations (get_mentions srv_retry_cutoff "nasa" 100 2) /\
      tweets = chain_tweets js /\
      (forall id, users !! id = last_by_id id (chain_user_records js)) /\
      (forall id u, users !! id = Some u -> u_id u = id) /\
      dom users = list_to_set (u_id <$> chain_user_records js).
Proof.
  eexists _, _. split; [vm_compute; reflexivity|].
  apply (get_mentions_author_index srv_retry_cutoff "nasa" 100 2).
  vm_compute. reflexivity.
Defined.

(* ------------------------------------------------------------------ *)
(** ** The tag classifier *)

Lemma prefix_app p s : String.prefix p s = true -> exists r, s = (p ++ r)%string.
Proof.
  revert s. induction p as [|a p IH]; intros s H.
  - by exists s.
  - destruct s as [|b s]; simpl in H; [discriminate|].
    destruct (ascii_dec a b) as [<-|]; [|discriminate].
    destruct (IH s H) as [r ->]. by exists r.
Qed.

Lemma substring_full r : substring 0 (String.length r) r = r.
Proof. induction r as [|c r IH]; simpl; [reflexivity|by rewrite IH]. Qed.

Lemma substring_app p r :
  substring (String.length p) (String.length (p ++ r) - String.length p) (p ++ r) = r.
Proof.
  induction p as [|c p IH]; simpl.
  - rewrite Nat.sub_0_r. apply substring_full.
  - exact IH.
Qed.

Lemma mention_search_cons c s :
  mention_search s <> None -> mention_search (String c s) <> None.
Proof. simpl. by destruct (_ && _). Qed.

Lemma retweet_at_mention s :
  retweet_at s <> None -> mention_search s <> None.
Proof.
  unfold retweet_at. destruct (String.prefix "RT @" s) eqn:Hp; [|done].
  destruct (prefix_app _ _ Hp) as [r ->].
  pose proof (substring_app "RT @" r) as Hs. simpl (String.length "RT @") in Hs.
  rewrite Hs.
  destruct (drop_while handle_char r) as [|d rest]; [done|].
  destruct (negb (is_empty (take_while handle_char r)) && Ascii.eqb d ":")
    eqn:Hg; [|done].
  intros _. apply (mention_search_cons "R"), (mention_search_cons "T"),
    (mention_search_cons " ").
  apply andb_true_iff in Hg as [Hg _].
  destruct r as [|c0 r]; [discriminate|].
  simpl in Hg. unfold handle_char in Hg.
  destruct (negb (Ascii.eqb c0 ":") && negb (is_space c0)) eqn:Hc0;
    [|discriminate].
  apply andb_true_iff in Hc0 as [_ Hc0].
  simpl. rewrite Hc0. simpl. discriminate.
Qed.

(** A retweet match always comes with a mention match: the ['@'] of
    ["RT @"] is followed by the handle's first, non-space, character. *)
Lemma retweet_implies_mention t :
  retweet_search t <> None -> mention_search t <> None.
Proof.
  induction t as [|c s IH]; [done|].
  change (retweet_search (String c s)) with
    (match retweet_at (String c s) with
     | Some g => Some g | None => retweet_search s end).
  destruct (retweet_at (String c s)) eqn:Ha.
  - intros _. apply retweet_at_mention. by rewrite Ha.
  - intros Hr. apply mention_search_cons, IH, Hr.
Qed.

(** C7: the classifier runs both searches; a retweet match sets the tag
    ["retweet"] and the retweet handle whatever the mention search found,
    otherwise a mention match sets ["mention"] and its handle; and a text
    that matches the retweet pattern always matches the mention pattern,
    so a single match is always a mention. *)
Theorem classify_last_match_wins (t : string) :
  classify t =
    match retweet_search t with
    | Some h => ("retweet"%string, h)
    | None =>
        match mention_search t with
        | Some h => ("mention"%string, h)
        | None => (""%string, ""%string)
        end
    end /\
  (retweet_search t <> None -> mention_search t <> None).
Proof.
  split; [|apply retweet_implies_mention].
  unfold classify. by destruct (mention_search t), (retweet_search t).
Qed.

Lemma classify_last_match_wins_witness :
  classify "RT @nasa: liftoff, thanks @esa" = ("retweet"%string, "nasa"%string) /\
  mention_search "RT @nasa: liftoff, thanks @esa" = Some "nasa:"%string /\
  (retweet_search "RT @nasa: liftoff, thanks @esa" <> None ->
   mention_search "RT @nasa: liftoff, thanks @esa" <> None).
Proof.
  destruct (classify_last_match_wins "RT @nasa: liftoff, thanks @esa") as [H1 H2].
  split; [rewrite H1; reflexivity|]. split; [reflexivity|exact H2].
Defined.

(* ------------------------------------------------------------------ *)
(** ** [get_users] *)

Section GetUsers.
Variable user_ids : list string.

Let batch_of (i : nat) : list string := slice user_ids i (i + batch_size).

Lemma range_batches_concat fuel :
    forall i, (List.length user_ids - i <= fuel)%nat ->
    List.concat (map batch_of (range_step fuel i (List.length user_ids) batch_size))
      = drop i user_ids.
  Proof.
    induction fuel as [|fuel IH]; intros i Hi; simpl.
    - rewrite drop_ge; [reflexivity|lia].
    - destruct (Nat.ltb_spec i (List.length user_ids)) as [Hlt|Hge]; simpl.
      + rewrite IH by (unfold batch_size; lia). unfold batch_of, slice.
        replace (i + batch_size - i)%nat with batch_size by lia.
        rewrite <-drop_drop. apply firstn_skipn.
      + rewrite drop_ge; [reflexivity|lia].
  Qed.

Lemma range_batches_length fuel :
    forall i,
    Forall (fun b => 1 <= List.length b <= batch_size)%nat
      (map batch_of (range_step fuel i (List.length user_ids) batch_size)).
  Proof.
    induction fuel as [|fuel IH]; intros i; simpl; [constructor|].
    destruct (Nat.ltb_spec i (List.length user_ids)); simpl; [|constructor].
    constructor; [|apply IH].
    unfold batch_of, slice. rewrite length_take, length_drop.
    unfold batch_size in *. lia.
  Qed.

Variable srv : users_server.

Definition batch_ok (k : nat) (b : list string) : Prop :=
    ur_status (srv k b) = 200 /\ exists d, ur_body (srv k b) = Some (Some d).

Lemma users_loop_ok starts :
    forall n acc,
    (forall k b, map batch_of starts !! k = Some b -> batch_ok (n + k)%nat b) ->
    users_loop srv user_ids starts n acc =
      (Ok (acc ++ List.concat (imap (fun k b => users_data (srv (n + k)%nat b))
                                 (map batch_of starts))),
       map batch_of starts).
  Proof.
    induction starts as [|i starts IH]; intros n acc Hok; simpl.
    - by rewrite app_nil_r.
    - destruct (Hok 0%nat (batch_of i)) as [Hs [d Hd]]; [reflexivity|].
      rewrite Nat.add_0_r in Hs, Hd. fold (batch_of i).
      rewrite Hs. simpl. unfold batch_of in *. rewrite Hd. simpl.
      rewrite IH.
      + rewrite Nat.add_0_r.
        replace (users_data (srv n (slice user_ids i (i + batch_size)))) with d
          by (unfold users_data; by rewrite Hd).
        rewrite <-app_assoc.
        rewrite (imap_ext ((fun k b => users_data (srv (n + k)%nat b)) ∘ S)
                   (fun k b => users_data (srv (S n + k)%nat b))); [reflexivity|].
        intros j b _. simpl. by rewrite Nat.add_succ_r.
      + intros k b Hk.
        eapply (eq_rect _ (fun m => batch_ok m b)); [apply (Hok (S k) b Hk)|lia].
  Qed.

Lemma users_loop_fail starts :
    forall k n acc b,
    map batch_of starts !! k = Some b ->
    (forall j b', (j < k)%nat -> map batch_of starts !! j = Some b' -> batch_ok (n + j)%nat b') ->
    ur_status (srv (n + k)%nat b) <> 200 ->
    users_loop srv user_ids starts n acc =
      (Raise (APIError (ur_text (srv (n + k)%nat b))), take (S k) (map batch_of starts)).
  Proof.
    induction starts as [|i starts IH]; intros k n acc b Hk Hprev Hbad; [discriminate|].
    simpl. fold (batch_of i).
    destruct k as [|k].
    - injection Hk as <-. rewrite Nat.add_0_r in Hbad.
      apply Z.eqb_neq in Hbad. rewrite Hbad. simpl. by rewrite Nat.add_0_r.
    - destruct (Hprev 0%nat (batch_of i)) as [Hs [d Hd]]; [lia|reflexivity|].
      rewrite Nat.add_0_r in Hs, Hd. rewrite Hs, Hd. simpl.
      rewrite (IH k (S n) _ b).
      + by rewrite Nat.add_succ_comm.
      + exact Hk.
      + intros j b' Hj Hb'.
        eapply (eq_rect _ (fun m => batch_ok m b')); [apply (Hprev (S j)); [lia|exact Hb']|lia].
      + by rewrite Nat.add_succ_comm.
  Qed.
End GetUsers.

(** C8: [get_users] cuts [user_ids], in order, into consecutive batches of
    1 to 100 identifiers; when every batch is answered by a 200 with a
    ['data'] array, it returns the arrays concatenated in batch order after
    exactly one request per batch; when batch [k] is the first answered by
    a non-200 status (429 included), it raises after the [k + 1]-th
    request, with no retry. *)
Theorem get_users_batched (srv : users_server) (user_ids : list string) :
  List.concat (batches user_ids) = user_ids /\
  Forall (fun b => 1 <= List.length b <= batch_size)%nat (batches user_ids) /\
  ((forall k b, batches user_ids !! k = Some b -> batch_ok srv k b) ->
   get_users srv user_ids =
     (Ok (List.concat (imap (fun k b => users_data (srv k b)) (batches user_ids))),
      batches user_ids)) /\
  (forall k b,
     batches user_ids !! k = Some b ->
     (forall j b', (j < k)%nat -> batches user_ids !! j = Some b' -> batch_ok srv j b') ->
     ur_status (srv k b) <> 200 ->
     get_users srv user_ids =
       (Raise (APIError (ur_text (srv k b))), take (S k) (batches user_ids))).
Proof.
  split; [|split; [|split]].
  - unfold batches, py_range. rewrite range_batches_concat by lia. reflexivity.
  - apply range_batches_length.
  - intros Hok. unfold get_users. rewrite users_loop_ok; [reflexivity|].
    intros k b Hk. apply Hok, Hk.
  - intros k b Hk Hprev Hbad. unfold get_users.
    apply (users_loop_fail user_ids srv _ k 0 [] b Hk); [exact Hprev|exact Hbad].
Qed.

Lemma get_users_batched_witness :
  get_users srv_users_ok (sample_ids 150) =
    (Ok (List.concat (imap (fun k b => users_data (srv_users_ok k b))
                         (batches (sample_ids 150)))),
     batches (sample_ids 150)) /\
  get_users srv_users_429 (sample_ids 150) =
    (Raise (APIError "Too Many Requests"), take 2 (batches (sample_ids 150))).
Proof.
  split.
  - destruct (get_users_batched srv_users_ok (sample_ids 150)) as [_ [_ [Hok _]]].
    apply Hok. intros k b _. split; [reflexivity|eexists; reflexivity].
  - destruct (get_users_batched srv_users_429 (sample_ids 150)) as [_ [_ [_ Hfail]]].
    apply (Hfail 1%nat (slice (sample_ids 150) 100 200)).
    + vm_compute. reflexivity.
    + intros [|j] b' Hj Hb'; [|lia].
      split; [reflexivity|eexists; reflexivity].
    + discriminate.
Defined.

(* ------------------------------------------------------------------ *)
(** ** [keyword2csv] *)

Lemma foldl_nodes_elem (users : gmap string user) keyword (tweets : list tweet) :
  forall (s : gset row) r,
  r ∈ foldl (fun s tw => {[row_of users keyword tw]} ∪ s) s tweets <->
  r ∈ s \/ exists tw, tw ∈ tweets /\ r = row_of users keyword tw.
Proof.
  induction tweets as [|tw tweets IH]; intros s r; simpl.
  - split; [tauto|]. intros [?|[? [?%elem_of_nil ?]]]; done.
  - rewrite IH, elem_of_union, elem_of_singleton. split.
    + intros [[->|?]|[tw' [? ->]]]; [right; exists tw; split; [left|]; done|tauto|].
      right. exists tw'. split; [by right|done].
    + intros [?|[tw' [[->|?]%elem_of_cons ->]]]; [tauto|tauto|].
      right. exists tw'. done.
Qed.

Lemma elem_of_nodes tweets users keyword r :
  r ∈ nodes tweets users keyword <->
  exists tw, tw ∈ tweets /\ r = row_of users keyword tw.
Proof.
  unfold nodes. rewrite foldl_nodes_elem. split; [|tauto].
  intros [?%elem_of_empty|?]; done.
Qed.

(** C9: the data rows of the file are pairwise distinct and are exactly
    the rows of the input tweets; the rows only depend on the set of input
    tweets, so duplicated tweets give one row; and the rows may come out
    in another order than the tweets (here, the reverse one). *)
Theorem keyword2csv_one_row_per_tuple (tweets : list tweet) (users : gmap string user)
    (keyword : string) :
  (forall header rows,
     keyword2csv tweets users keyword header rows ->
     header = csv_header /\ NoDup rows /\
     (forall r, r ∈ rows <-> exists tw, tw ∈ tweets /\ r = row_of users keyword tw)) /\
  (forall tweets' : list tweet,
     (forall tw, tw ∈ tweets' <-> tw ∈ tweets) ->
     nodes tweets' users keyword = nodes tweets users keyword) /\
  keyword2csv [sample_tweet "1"; sample_tweet "2"] ∅ "nasa" csv_header
    (reverse (map (row_of ∅ "nasa") [sample_tweet "1"; sample_tweet "2"])).
Proof.
  split; [|split].
  - intros header rows [Hh Hp]. split; [exact Hh|]. split.
    + rewrite Hp. apply NoDup_elements.
    + intros r. rewrite Hp, elem_of_elements. apply elem_of_nodes.
  - intros tweets' Hsame. apply set_eq. intros r.
    rewrite !elem_of_nodes. split; intros [tw [Hin ->]]; exists tw; split;
      [by apply Hsame| done | by apply Hsame | done].
  - split; [reflexivity|]. vm_compute. apply perm_swap.
Qed.

Lemma keyword2csv_one_row_per_tuple_witness :
  nodes [sample_tweet "1"; sample_tweet "1"; sample_tweet "2"] ∅ "nasa" =
    nodes [sample_tweet "1"; sample_tweet "2"] ∅ "nasa" /\
  size (nodes [sample_tweet "1"; sample_tweet "2"] ∅ "nasa") = 2%nat.
Proof.
  destruct (keyword2csv_one_row_per_tuple [sample_tweet "1"; sample_tweet "2"] ∅ "nasa")
    as [_ [Hdup _]].
  split.
  - apply Hdup. intros tw. rewrite !elem_of_cons. tauto.
  - vm_compute. reflexivity.
Defined.

(** C10: a tweet whose author is not in [users] gets the row with
    [Author_Username] and [Location] set to ["unknown"]; an author record
    without a location gets [Location] ["unknown"] and its username; in
    both cases the row is among the rows written for the tweets. *)
Theorem keyword2csv_unknown_author (users : gmap string user) (keyword : string)
    (tw : tweet) (tweets : list tweet) :
  tw ∈ tweets ->
  (users !! t_author_id tw = None ->
   exists source tag,
     row_of users keyword tw =
       (t_id tw, "unknown"%string, source, t_author_id tw, tag, keyword,
        t_created_at tw, "unknown"%string, t_text tw) /\
     row_of users keyword tw ∈ nodes tweets users keyword) /\
  (forall u, users !! t_author_id tw = Some u -> u_location u = None ->
   exists source tag,
     row_of users keyword tw =
       (t_id tw, u_username u, source, t_author_id tw, tag, keyword,
        t_created_at tw, "unknown"%string, t_text tw) /\
     row_of users keyword tw ∈ nodes tweets users keyword).
Proof.
  intros Hin.
  assert (Hn : row_of users keyword tw ∈ nodes tweets users keyword)
    by (apply elem_of_nodes; eauto).
  unfold row_of in *. destruct (classify (t_text tw)) as [tag source].
  split.
  - intros Hnone. rewrite Hnone in *. exists source, tag. split; [reflexivity|exact Hn].
  - intros u Hu Hloc. rewrite Hu in *. rewrite Hloc in *.
    exists source, tag. split; [reflexivity|exact Hn].
Qed.

Lemma keyword2csv_unknown_author_witness :
  (exists source tag : string,
     row_of ∅ "nasa" (sample_tweet "1") =
       ("1"%string, "unknown"%string, source, "42"%string, tag, "nasa"%string,
        "2024-05-01T00:00:00.000Z"%string, "unknown"%string,
        "RT @nasa: liftoff"%string) /\
     row_of ∅ "nasa" (sample_tweet "1") ∈ nodes [sample_tweet "1"] ∅ "nasa") /\
  (exists source tag : string,
     row_of {[ "42"%string := bob ]} "nasa" (mk_tweet "9" "42" "hi" "t") =
       ("9"%string, "bob"%string, source, "42"%string, tag, "nasa"%string,
        "t"%string, "unknown"%string, "hi"%string) /\
     row_of {[ "42"%string := bob ]} "nasa" (mk_tweet "9" "42" "hi" "t")
       ∈ nodes [mk_tweet "9" "42" "hi" "t"] {[ "42"%string := bob ]} "nasa").
Proof.
  split.
  - apply (keyword2csv_unknown_author ∅ "nasa" (sample_tweet "1") [sample_tweet "1"]);
      [by left|reflexivity].
  - destruct (keyword2csv_unknown_author {[ "42"%string := bob ]} "nasa"
                (mk_tweet "9" "42" "hi" "t") [mk_tweet "9" "42" "hi" "t"])
      as [_ H2]; [by left|].
    destruct (H2 bob eq_refl eq_refl) as [source [tag [E Hn]]].
    exists source, tag. split; [exact E|exact Hn].
Defined.

(* ------------------------------------------------------------------ *)
(** ** [create_url]: what the query string carries *)

Lemma hex_val_digit d : (d < 16)%nat -> hex_val (hex_digit d) = Some d.
Proof. intros Hd. do 16 (destruct d as [|d]; [reflexivity|]). lia. Qed.

Lemma nat_of_ascii_of_nat_small b : (b < 256)%nat -> nat_of_ascii (ascii_of_nat b) = b.
Proof. apply nat_ascii_embedding. Qed.

Lemma form_decode_quote_byte b r :
  (b < 256)%nat ->
  form_decode (quote_byte b ++ r) = cons b <$> form_decode r.
Proof.
  intros Hb. unfold quote_byte.
  destruct (Nat.eqb_spec b 32) as [->|H32]; [reflexivity|].
  destruct (always_safe_byte b) eqn:Hsafe.
  - simpl.
    destruct (Ascii.eqb_spec (ascii_of_nat b) "+") as [E|_].
    { apply (f_equal nat_of_ascii) in E. rewrite nat_of_ascii_of_nat_small in E by lia.
      subst. discriminate. }
    destruct (Ascii.eqb_spec (ascii_of_nat b) "%") as [E|_].
    { apply (f_equal nat_of_ascii) in E. rewrite nat_of_ascii_of_nat_small in E by lia.
      subst. discriminate. }
    rewrite nat_of_ascii_of_nat_small by lia. reflexivity.
  - assert (H1 : hex_val (hex_digit (b / 16)) = Some (b / 16)%nat).
    { apply hex_val_digit, Nat.Div0.div_lt_upper_bound. lia. }
    assert (H2 : hex_val (hex_digit (b mod 16)) = Some (b mod 16)%nat).
    { apply hex_val_digit, Nat.mod_upper_bound. lia. }
    change ((String "%" (String (hex_digit (b / 16)) (String (hex_digit (b mod 16))
              EmptyString)) ++ r)%string)
      with (String "%" (String (hex_digit (b / 16)) (String (hex_digit (b mod 16)) r))).
    cbn -[Nat.div Nat.modulo hex_digit hex_val]. rewrite H1, H2.
    f_equal. f_equal. pose proof (Nat.div_mod_eq b 16). lia.
Qed.

Lemma form_decode_quote_bytes l :
  Forall (fun b => b < 256)%nat l -> form_decode (quote_bytes l) = Some l.
Proof.
  induction 1 as [|b l Hb _ IH]; [reflexivity|].
  simpl. rewrite form_decode_quote_byte by exact Hb. rewrite IH. reflexivity.
Qed.

Ltac utf8_arith := Z.div_mod_to_equations; lia.

Lemma py_str_check s :
  forallb (fun c => (0 <=? c) && (c <=? 0x10FFFF)) s = true -> py_str s.
Proof.
  induction s as [|c s IH]; simpl; [constructor|].
  intros [[H1 H2]%andb_true_iff H]%andb_true_iff.
  constructor; [apply Z.leb_le in H1, H2; lia|exact (IH H)].
Qed.

Lemma utf8_encode_char_spec c bs :
  0 <= c <= 0x10FFFF -> utf8_encode_char c = Some bs ->
  Forall (fun b => 0 <= b < 256) bs /\
  forall rest, utf8_decode (bs ++ rest) = cons c <$> utf8_decode rest.
Proof.
  intros Hc. unfold utf8_encode_char.
  destruct (Z.ltb_spec c 0x80); [intros [= <-]|].
  { split; [repeat constructor; lia|]. intros rest. simpl.
    destruct (Z.ltb_spec c 0x80); [reflexivity|lia]. }
  destruct (Z.ltb_spec c 0x800); [intros [= <-]|].
  { split; [repeat constructor; utf8_arith|]. intros rest. cbn [app utf8_decode].
    destruct (Z.ltb_spec (0xC0 + c / 64) 0x80); [exfalso; utf8_arith|].
    destruct (Z.ltb_spec (0xC0 + c / 64) 0xC0); [exfalso; utf8_arith|].
    destruct (Z.ltb_spec (0xC0 + c / 64) 0xE0); [|exfalso; utf8_arith].
    f_equal. f_equal. utf8_arith. }
  destruct (Z.ltb_spec c 0x10000).
  { destruct (is_surrogate c); [discriminate|]. intros [= <-].
    split; [repeat constructor; utf8_arith|]. intros rest. cbn [app utf8_decode].
    destruct (Z.ltb_spec (0xE0 + c / 4096) 0x80); [exfalso; utf8_arith|].
    destruct (Z.ltb_spec (0xE0 + c / 4096) 0xC0); [exfalso; utf8_arith|].
    destruct (Z.ltb_spec (0xE0 + c / 4096) 0xE0); [exfalso; utf8_arith|].
    destruct (Z.ltb_spec (0xE0 + c / 4096) 0xF0); [|exfalso; utf8_arith].
    f_equal. f_equal. utf8_arith. }
  intros [= <-]. split; [repeat constructor; utf8_arith|]. intros rest. cbn [app utf8_decode].
  destruct (Z.ltb_spec (0xF0 + c / 262144) 0x80); [exfalso; utf8_arith|].
  destruct (Z.ltb_spec (0xF0 + c / 262144) 0xC0); [exfalso; utf8_arith|].
  destruct (Z.ltb_spec (0xF0 + c / 262144) 0xE0); [exfalso; utf8_arith|].
  destruct (Z.ltb_spec (0xF0 + c / 262144) 0xF0); [exfalso; utf8_arith|].
  f_equal. f_equal. utf8_arith.
Qed.

Lemma utf8_encode_char_some c :
  negb (is_surrogate c) = true -> exists bs, utf8_encode_char c = Some bs.
Proof.
  intros H. apply negb_true_iff in H. unfold utf8_encode_char. rewrite H.
  repeat case_match; eauto.
Qed.

Lemma utf8_encode_char_surrogate c : is_surrogate c = true -> utf8_encode_char c = None.
Proof.
  intros H. unfold is_surrogate in H. apply andb_true_iff in H as [H1 H2].
  apply Z.leb_le in H1, H2. unfold utf8_encode_char, is_surrogate.
  destruct (Z.ltb_spec c 0x80); [lia|]. destruct (Z.ltb_spec c 0x800); [lia|].
  destruct (Z.ltb_spec c 0x10000); [|lia].
  replace (0xD800 <=? c) with true by (symmetry; apply Z.leb_le; lia).
  replace (c <=? 0xDFFF) with true by (symmetry; apply Z.leb_le; lia). reflexivity.
Qed.

(** The strict encoder succeeds exactly on the strings without lone
    surrogates, and the decoder reads its bytes back. *)
Lemma utf8_encode_roundtrip s :
  py_str s ->
  (no_surrogate s = true ->
   exists bs, utf8_encode s = Some bs /\ Forall (fun b => 0 <= b < 256) bs /\
              utf8_decode bs = Some s) /\
  (no_surrogate s = false -> utf8_encode s = None).
Proof.
  induction 1 as [|c s Hc Hs IH]; simpl.
  - split; [intros _; exists []; repeat constructor|discriminate].
  - destruct IH as [IH1 IH2]. split.
    + intros H. apply andb_true_iff in H as [Hc' Hs'].
      destruct (utf8_encode_char_some c Hc') as [b Hb].
      destruct (IH1 Hs') as [bs [Ebs [Hr Hd]]].
      rewrite Hb, Ebs. exists (b ++ bs).
      destruct (utf8_encode_char_spec c b Hc Hb) as [Hbr Hdec].
      split; [reflexivity|]. split; [by apply Forall_app|].
      rewrite Hdec, Hd. reflexivity.
    + intros H. apply andb_false_iff in H as [Hc'|Hs'].
      * apply negb_false_iff in Hc'. by rewrite utf8_encode_char_surrogate.
      * rewrite (IH2 Hs'). by destruct (utf8_encode_char c).
Qed.

Lemma map_of_to_nat (bs : list Z) :
  Forall (fun b => 0 <= b) bs -> map Z.of_nat (map Z.to_nat bs) = bs.
Proof.
  induction 1 as [|b bs Hb _ IH]; [reflexivity|]. simpl. rewrite IH, Z2Nat.id by lia.
  reflexivity.
Qed.

Lemma quote_plus_spec s :
  py_str s ->
  (no_surrogate s = true ->
   exists q, quote_plus s = Some q /\ form_decode_str q = Some s /\
     exists bs, q = quote_bytes bs /\ Forall (fun b => b < 256)%nat bs) /\
  (no_surrogate s = false -> quote_plus s = None).
Proof.
  intros Hs. destruct (utf8_encode_roundtrip s Hs) as [H1 H2]. split.
  - intros Hn. destruct (H1 Hn) as [bs [E [Hr Hd]]].
    unfold quote_plus. rewrite E. eexists. split; [reflexivity|].
    assert (Hr' : Forall (fun b => b < 256)%nat (map Z.to_nat bs)).
    { apply Forall_forall. intros b Hb. apply list_elem_of_In, in_map_iff in Hb as [x [<- Hx]].
      rewrite Forall_forall in Hr. specialize (Hr x (proj2 (list_elem_of_In _ _) Hx)). lia. }
    split; [|exists (map Z.to_nat bs); split; [reflexivity|exact Hr']].
    unfold form_decode_str. rewrite form_decode_quote_bytes by exact Hr'.
    rewrite map_of_to_nat; [exact Hd|].
    eapply Forall_impl; [exact Hr|]. simpl. lia.
  - intros Hn. unfold quote_plus. by rewrite (H2 Hn).
Qed.

(** [quote_plus] raises on a lone surrogate; on any other [str] it gives a
    text that form decoding and UTF-8 decoding turn back into the same
    [str]. *)
Theorem quote_plus_decode (s : pystr) :
  py_str s ->
  (no_surrogate s = true ->
   exists q, quote_plus s = Some q /\ form_decode_str q = Some s) /\
  (no_surrogate s = false -> quote_plus s = None).
Proof.
  intros Hs. destruct (quote_plus_spec s Hs) as [H1 H2]. split; [|exact H2].
  intros Hn. destruct (H1 Hn) as [q [E [D _]]]. by exists q.
Qed.

(** The string ['café \U0001F680 & more'] and ['\ud800']. *)
Definition sample_pystr : pystr := pystr_of "caf" ++ [0xE9; 32; 0x1F680] ++ pystr_of " & more".

Lemma quote_plus_decode_witness :
  (exists q, quote_plus sample_pystr = Some q /\ form_decode_str q = Some sample_pystr) /\
  quote_plus [0xD800] = None.
Proof.
  split.
  - refine (proj1 (quote_plus_decode sample_pystr _) _); [|reflexivity].
    apply py_str_check. reflexivity.
  - refine (proj2 (quote_plus_decode [0xD800] _) _); [apply py_str_check; reflexivity|reflexivity].
Defined.

Definition quote_byte_clean (b : nat) : bool :=
  negb (has_char "&" (quote_byte b)) && negb (has_char "=" (quote_byte b))
  && negb (has_char "?" (quote_byte b)) && negb (has_char "#" (quote_byte b))
  && negb (has_char " " (quote_byte b)).

Lemma quote_byte_clean_all : forallb quote_byte_clean (seq 0 256) = true.
Proof. vm_compute. reflexivity. Qed.

Lemma has_char_app c s1 s2 : has_char c (s1 ++ s2) = has_char c s1 || has_char c s2.
Proof. induction s1 as [|d s1 IH]; simpl; [reflexivity|]. by rewrite IH, orb_assoc. Qed.

Lemma quote_bytes_no_char c l :
  c ∈ ["&"; "="; "?"; "#"; " "]%char -> Forall (fun b => b < 256)%nat l ->
  has_char c (quote_bytes l) = false.
Proof.
  intros Hc. induction 1 as [|b l Hb _ IH]; [reflexivity|].
  simpl. rewrite has_char_app, IH, orb_false_r.
  pose proof quote_byte_clean_all as Hall. rewrite forallb_forall in Hall.
  specialize (Hall b). rewrite in_seq in Hall. specialize (Hall ltac:(lia)).
  unfold quote_byte_clean in Hall. repeat rewrite andb_true_iff in Hall.
  rewrite !negb_true_iff in Hall.
  repeat (apply elem_of_cons in Hc as [->|Hc]; [tauto|]). by apply elem_of_nil in Hc.
Qed.

Lemma quote_plus_no_separator s q c :
  py_str s -> quote_plus s = Some q ->
  c ∈ ["&"; "="; "?"; "#"; " "]%char -> has_char c q = false.
Proof.
  intros Hs E Hc. destruct (no_surrogate s) eqn:Hn.
  - destruct (proj1 (quote_plus_spec s Hs) Hn) as [q' [E' [_ [bs [-> Hbs]]]]].
    rewrite E in E'. injection E' as ->. by apply quote_bytes_no_char.
  - rewrite (proj2 (quote_plus_spec s Hs) Hn) in E. discriminate.
Qed.

Lemma split_on_no_sep sep a : has_char sep a = false -> split_on sep a = [a].
Proof.
  induction a as [|c a IH]; simpl; [reflexivity|].
  intros H. apply orb_false_iff in H as [Hc Ha]. rewrite Hc, IH by exact Ha. reflexivity.
Qed.

Lemma split_on_app_sep sep a b :
  has_char sep a = false -> split_on sep (a ++ String sep b) = a :: split_on sep b.
Proof.
  induction a as [|c a IH]; simpl; intros H.
  - by rewrite Ascii.eqb_refl.
  - apply orb_false_iff in H as [Hc Ha]. rewrite Hc, IH by exact Ha. reflexivity.
Qed.

Lemma break_at_app_sep sep a b :
  has_char sep a = false -> break_at sep (a ++ String sep b) = Some (a, b).
Proof.
  induction a as [|c a IH]; simpl; intros H.
  - by rewrite Ascii.eqb_refl.
  - apply orb_false_iff in H as [Hc Ha]. rewrite Hc, IH by exact Ha. reflexivity.
Qed.

Lemma split_on_join sep xs :
  xs <> [] -> Forall (fun x => has_char sep x = false) xs ->
  split_on sep (join_with (String sep EmptyString) xs) = xs.
Proof.
  intros Hne Hall. induction Hall as [|x xs Hx Hxs IH]; [done|].
  destruct xs as [|y ys].
  - by apply split_on_no_sep.
  - change (join_with (String sep EmptyString) (x :: y :: ys))
      with (x ++ String sep (join_with (String sep EmptyString) (y :: ys)))%string.
    rewrite split_on_app_sep by exact Hx. rewrite IH; [reflexivity|discriminate].
Qed.

Lemma decode_pair_quoted k v k' v' :
  py_str k -> quote_plus k = Some k' -> form_decode_str k' = Some k ->
  form_decode_str v' = Some v ->
  decode_pair (k' ++ "=" ++ v') = Some (k, v).
Proof.
  intros Hk Ek Dk Dv. unfold decode_pair.
  change ("=" ++ v')%string with (String "=" v').
  rewrite break_at_app_sep by (eapply quote_plus_no_separator; [exact Hk|exact Ek|set_solver]).
  by rewrite Dk, Dv.
Qed.

Lemma quote_plus_key (k : string) :
  quote_plus (pystr_of k) = Some k ->
  form_decode_str k = Some (pystr_of k) ->
  py_str (pystr_of k) /\ quote_plus (pystr_of k) = Some k /\ form_decode_str k = Some (pystr_of k).
Proof.
  intros E D. split; [|tauto]. unfold py_str, pystr_of.
  apply Forall_forall. intros c Hc. apply list_elem_of_In, in_map_iff in Hc as [a [<- _]].
  pose proof (nat_ascii_bounded a). lia.
Qed.

Lemma has_char_item c a b :
  c <> "="%char -> has_char c a = false -> has_char c b = false ->
  has_char c (a ++ "=" ++ b) = false.
Proof.
  intros Hc Ha Hb. rewrite has_char_app, Ha, orb_false_l.
  change ("=" ++ b)%string with (String "=" b).
  change (has_char c (String "=" b)) with (Ascii.eqb "=" c || has_char c b).
  rewrite Hb, orb_false_r. apply Ascii.eqb_neq. congruence.
Qed.

(** [create_url] raises [UnicodeEncodeError] when an argument holds a lone
    surrogate.  Otherwise it returns the counts endpoint, a ['?'], and a
    query string that reads back as exactly the four pairs [query],
    [granularity], [start_time] and [end_time], in this order, with the
    arguments' values, whatever characters ([&], [=], [?], [#], spaces,
    any non-ASCII code point) they contain. *)
Theorem create_url_roundtrip (query granularity start_time end_time : pystr) :
  py_str query -> py_str granularity -> py_str start_time -> py_str end_time ->
  (no_surrogate query && no_surrogate granularity && no_surrogate start_time
     && no_surrogate end_time = true ->
   exists qs,
     create_url query granularity start_time end_time =
       Some (counts_endpoint ++ "?" ++ qs)%string /\
     parse_qs qs = Some [(pystr_of "query", query); (pystr_of "granularity", granularity);
                         (pystr_of "start_time", start_time); (pystr_of "end_time", end_time)]) /\
  (no_surrogate query && no_surrogate granularity && no_surrogate start_time
     && no_surrogate end_time = false ->
   create_url query granularity start_time end_time = None).
Proof.
  intros Hq Hg Hs He.
  destruct (quote_plus_key "query" eq_refl eq_refl) as [Kq [Eq Dq]].
  destruct (quote_plus_key "granularity" eq_refl eq_refl) as [Kg [Eg Dg]].
  destruct (quote_plus_key "start_time" eq_refl eq_refl) as [Ks [Es Ds]].
  destruct (quote_plus_key "end_time" eq_refl eq_refl) as [Ke [Ee De]].
  split.
  - intros H. repeat rewrite andb_true_iff in H. destruct H as [[[Nq Ng] Ns] Ne].
    destruct (proj1 (quote_plus_spec _ Hq) Nq) as [q [Qq [Fq _]]].
    destruct (proj1 (quote_plus_spec _ Hg) Ng) as [g [Qg [Fg _]]].
    destruct (proj1 (quote_plus_spec _ Hs) Ns) as [st [Qs [Fs _]]].
    destruct (proj1 (quote_plus_spec _ He) Ne) as [et [Qe [Fe _]]].
    unfold create_url, urlencode. cbn [urlencode_items].
    rewrite Eq, Qq, Eg, Qg, Es, Qs, Ee, Qe. eexists. split; [reflexivity|].
    unfold parse_qs. rewrite split_on_join; [|discriminate|].
    + cbn [mapM]. rewrite (decode_pair_quoted _ _ _ _ Kq Eq Dq Fq),
        (decode_pair_quoted _ _ _ _ Kg Eg Dg Fg), (decode_pair_quoted _ _ _ _ Ks Es Ds Fs),
        (decode_pair_quoted _ _ _ _ Ke Ee De Fe).
      reflexivity.
    + assert (Hne : "&"%char <> "="%char) by discriminate.
      assert (Hin : "&"%char ∈ ["&"; "="; "?"; "#"; " "]%char) by set_solver.
      repeat constructor; apply has_char_item; try exact Hne;
        first [exact (quote_plus_no_separator _ _ _ Kq Eq Hin)
              |exact (quote_plus_no_separator _ _ _ Hq Qq Hin)
              |exact (quote_plus_no_separator _ _ _ Kg Eg Hin)
              |exact (quote_plus_no_separator _ _ _ Hg Qg Hin)
              |exact (quote_plus_no_separator _ _ _ Ks Es Hin)
              |exact (quote_plus_no_separator _ _ _ Hs Qs Hin)
              |exact (quote_plus_no_separator _ _ _ Ke Ee Hin)
              |exact (quote_plus_no_separator _ _ _ He Qe Hin)].
  - intros H. unfold create_url, urlencode. cbn [urlencode_items]. rewrite Eq, Eg, Es, Ee.
    destruct (no_surrogate query) eqn:Nq.
    2: { by rewrite (proj2 (quote_plus_spec _ Hq) Nq). }
    destruct (proj1 (quote_plus_spec _ Hq) Nq) as [q [-> _]].
    destruct (no_surrogate granularity) eqn:Ng.
    2: { by rewrite (proj2 (quote_plus_spec _ Hg) Ng). }
    destruct (proj1 (quote_plus_spec _ Hg) Ng) as [g [-> _]].
    destruct (no_surrogate start_time) eqn:Ns.
    2: { by rewrite (proj2 (quote_plus_spec _ Hs) Ns). }
    destruct (proj1 (quote_plus_spec _ Hs) Ns) as [st [-> _]].
    destruct (no_surrogate end_time) eqn:Ne; [discriminate|].
    by rewrite (proj2 (quote_plus_spec _ He) Ne).
Qed.

Ltac solve_py_str := apply py_str_check; reflexivity.

Lemma create_url_roundtrip_witness :
  (exists qs,
     create_url sample_pystr (pystr_of "day") (pystr_of "2024-05-01T00:00:00Z")
       (pystr_of "2024-05-02T00:00:00Z") = Some (counts_endpoint ++ "?" ++ qs)%string /\
     parse_qs qs = Some [(pystr_of "query", sample_pystr);
                         (pystr_of "granularity", pystr_of "day");
                         (pystr_of "start_time", pystr_of "2024-05-01T00:00:00Z");
                         (pystr_of "end_time", pystr_of "2024-05-02T00:00:00Z")]) /\
  create_url [0xD800] (pystr_of "day") (pystr_of "2024-05-01T00:00:00Z")
    (pystr_of "2024-05-02T00:00:00Z") = None.
Proof.
  split.
  - refine (proj1 (create_url_roundtrip sample_pystr (pystr_of "day")
             (pystr_of "2024-05-01T00:00:00Z") (pystr_of "2024-05-02T00:00:00Z") _ _ _ _) _);
      [solve_py_str|solve_py_str|solve_py_str|solve_py_str|vm_compute; reflexivity].
  - refine (proj2 (create_url_roundtrip [0xD800] (pystr_of "day")
             (pystr_of "2024-05-01T00:00:00Z") (pystr_of "2024-05-02T00:00:00Z") _ _ _ _) _);
      [solve_py_str|solve_py_str|solve_py_str|solve_py_str|vm_compute; reflexivity].
Defined.

(* ------------------------------------------------------------------ *)
(** ** The bar labels of [get_tweet_counts] *)

Ltac explode_string H :=
  match type of H with
  | String.length ?s = O => destruct s; [clear H|discriminate H]
  | String.length ?s = S _ =>
      let c := fresh "c" in
      destruct s as [|c s]; [discriminate H|simpl in H; injection H as H];
      explode_string H
  end.

(** On the API's timestamps [YYYY-MM-DDTHH:MM:SS.sssZ] the bar labels are
    [HH:MM] for ['hour'], [YYYY-MM-DD] for ['day'] and, for any other
    granularity, the minutes and seconds [MM:SS]. *)
Theorem bar_label_iso (y mo d h mi s ms : string) :
  String.length y = 4%nat -> String.length mo = 2%nat -> String.length d = 2%nat ->
  String.length h = 2%nat -> String.length mi = 2%nat -> String.length s = 2%nat ->
  String.length ms = 3%nat ->
  let start := (y ++ "-" ++ mo ++ "-" ++ d ++ "T" ++ h ++ ":" ++ mi ++ ":" ++ s
                ++ "." ++ ms ++ "Z")%string in
  bar_label "hour" start = (h ++ ":" ++ mi)%string /\
  bar_label "day" start = (y ++ "-" ++ mo ++ "-" ++ d)%string /\
  (forall g, g <> "hour"%string -> g <> "day"%string ->
     bar_label g start = (mi ++ ":" ++ s)%string).
Proof.
  intros Hy Hmo Hd Hh Hmi Hs Hms start.
  explode_string Hy. explode_string Hmo. explode_string Hd. explode_string Hh.
  explode_string Hmi. explode_string Hs. explode_string Hms.
  split; [reflexivity|split; [reflexivity|]].
  intros g Hg1 Hg2. unfold bar_label.
  apply String.eqb_neq in Hg1, Hg2. rewrite Hg1, Hg2. reflexivity.
Qed.

Lemma bar_label_iso_witness :
  bar_label "hour" "2024-05-01T13:45:30.000Z" = "13:45"%string /\
  bar_label "day" "2024-05-01T13:45:30.000Z" = "2024-05-01"%string /\
  bar_label "minute" "2024-05-01T13:45:30.000Z" = "45:30"%string.
Proof.
  destruct (bar_label_iso "2024" "05" "01" "13" "45" "30" "000")
    as [H1 [H2 H3]]; try reflexivity.
  split; [exact H1|split; [exact H2|]].
  apply H3; discriminate.
Defined.

(* ------------------------------------------------------------------ *)
(** ** More on [get_mentions] *)

(** [for _ in range(max_pages)] with [max_pages <= 0] runs no iteration:
    no request is sent and the empty list and dict are returned. *)
Theorem get_mentions_no_pages (srv : search_server) keyword max_results max_pages :
  max_pages <= 0 ->
  get_mentions srv keyword max_results max_pages = mk_session (Ok ([], ∅)) 0 0.
Proof.
  intros H. unfold get_mentions.
  replace (Z.to_nat max_pages) with 0%nat by lia. reflexivity.
Qed.

Lemma get_mentions_no_pages_witness :
  0 <= 0 /\ get_mentions srv_endless "nasa" 10 0 = mk_session (Ok ([], ∅)) 0 0.
Proof. split; [lia|apply get_mentions_no_pages; lia]. Defined.

Lemma mentions_loop_requests fuel :
  forall srv n it p acc_t acc_u,
  let s := mentions_loop srv fuel n it p acc_t acc_u in
  (it <= iterations s)%nat /\
  (iterations s - it <= requests s - n <= 2 * (iterations s - it))%nat /\
  (n <= requests s)%nat.
Proof.
  induction fuel as [|fuel IH]; intros srv n it p acc_t acc_u s; subst s; simpl.
  - lia.
  - repeat case_match; simplify_eq/=; try lia;
      match goal with
      | |- context [mentions_loop srv fuel ?n' ?it' ?p' ?t' ?u'] =>
          destruct (IH srv n' it' p' t' u') as [? [? ?]]; lia
      end.
Qed.

(** Every loop iteration sends one request, or two when the first is
    answered 429: the number of requests lies between the number of
    iterations and twice that number. *)
Theorem get_mentions_requests_per_iteration (srv : search_server) keyword max_results max_pages :
  let s := get_mentions srv keyword max_results max_pages in
  (iterations s <= requests s <= 2 * iterations s)%nat.
Proof.
  intros s. destruct (mentions_loop_requests (Z.to_nat max_pages) srv 0 0
    (mk_params keyword max_results None) [] ∅) as [_ [H _]].
  unfold s, get_mentions. lia.
Qed.

Lemma mentions_loop_params fuel :
  forall (srv1 srv2 : search_server) keyword max_results n it p acc_t acc_u,
  p_query p = keyword -> p_max_results p = max_results ->
  (forall k q, p_query q = keyword -> p_max_results q = max_results -> srv1 k q = srv2 k q) ->
  mentions_loop srv1 fuel n it p acc_t acc_u = mentions_loop srv2 fuel n it p acc_t acc_u.
Proof.
  induction fuel as [|fuel IH]; intros srv1 srv2 keyword max_results n it p acc_t acc_u Hq Hm Hsrv;
    simpl; [reflexivity|].
  rewrite !(Hsrv _ p Hq Hm).
  repeat case_match; try reflexivity; simplify_eq/=.
  all: try (eapply IH; [reflexivity|reflexivity|exact Hsrv]).
  all: congruence.
Qed.

(** Only [next_token] changes between requests: the session depends on the
    server's answers to requests with the caller's [query] and
    [max_results] only. *)
Theorem get_mentions_fixed_params (srv1 srv2 : search_server) keyword max_results max_pages :
  (forall k q, p_query q = keyword -> p_max_results q = max_results -> srv1 k q = srv2 k q) ->
  get_mentions srv1 keyword max_results max_pages =
  get_mentions srv2 keyword max_results max_pages.
Proof.
  intros H. unfold get_mentions.
  by apply (mentions_loop_params _ _ _ keyword max_results).
Qed.

Lemma get_mentions_fixed_params_witness :
  get_mentions srv_two_pages "nasa" 10 5 =
  get_mentions (fun k q => if String.eqb (p_query q) "nasa" && Z.eqb (p_max_results q) 10
                           then srv_two_pages k q else too_many_requests) "nasa" 10 5.
Proof.
  apply get_mentions_fixed_params.
  intros k q -> ->. reflexivity.
Defined.

(* ------------------------------------------------------------------ *)
(** ** More on [get_users] *)

Lemma range_step_length fuel :
  forall i len, (len - i <= fuel)%nat ->
  List.length (range_step fuel i len batch_size) = ((len - i + 99) / 100)%nat.
Proof.
  unfold batch_size.
  induction fuel as [|fuel IH]; intros i len Hi; cbn [range_step].
  - replace (len - i)%nat with 0%nat by lia. reflexivity.
  - destruct (Nat.ltb_spec i len) as [Hlt|Hge]; cbn [List.length].
    + rewrite IH by lia.
      destruct (Nat.le_gt_cases 100 (len - i)) as [Hb|Hs].
      * replace (len - i + 99)%nat with ((len - (i + 100) + 99) + 1 * 100)%nat by lia.
        rewrite Nat.div_add by lia. lia.
      * replace (len - (i + 100))%nat with 0%nat by lia.
        change (S ((0 + 99) / 100)) with 1%nat.
        apply Nat.div_unique with (len - i - 1)%nat; lia.
    + replace (len - i)%nat with 0%nat by lia. reflexivity.
Qed.

(** [range(0, len(user_ids), 100)] has [ceil(len(user_ids) / 100)]
    elements: that many batches are requested when none fails, and none for
    an empty list. *)
Theorem get_users_batch_count (user_ids : list string) :
  List.length (batches user_ids) = ((List.length user_ids + 99) / 100)%nat.
Proof.
  unfold batches, py_range. rewrite length_map, range_step_length by lia.
  by rewrite Nat.sub_0_r.
Qed.

Lemma users_loop_stop (srv : users_server) (user_ids : list string) starts :
  forall k n acc b,
  map (fun i => slice user_ids i (i + batch_size)) starts !! k = Some b ->
  (forall j b', (j < k)%nat ->
     map (fun i => slice user_ids i (i + batch_size)) starts !! j = Some b' ->
     batch_ok srv (n + j)%nat b') ->
  ur_status (srv (n + k)%nat b) = 200 ->
  (ur_body (srv (n + k)%nat b) = None ->
   users_loop srv user_ids starts n acc =
     (Raise JSONDecodeError, take (S k) (map (fun i => slice user_ids i (i + batch_size)) starts))) /\
  (ur_body (srv (n + k)%nat b) = Some None ->
   users_loop srv user_ids starts n acc =
     (Raise (KeyError "data"), take (S k) (map (fun i => slice user_ids i (i + batch_size)) starts))).
Proof.
  induction starts as [|i starts IH]; intros k n acc b Hk Hprev Hs; [discriminate|].
  simpl. destruct k as [|k].
  - injection Hk as <-. rewrite Nat.add_0_r in Hs. rewrite Nat.add_0_r. rewrite Hs. simpl.
    split; intros ->; reflexivity.
  - destruct (Hprev 0%nat (slice user_ids i (i + batch_size))) as [Hs0 [d Hd]]; [lia|reflexivity|].
    rewrite Nat.add_0_r in Hs0, Hd. rewrite Hs0, Hd. simpl.
    assert (Hprev' : forall j b', (j < k)%nat ->
       map (fun i => slice user_ids i (i + batch_size)) starts !! j = Some b' ->
       batch_ok srv (S n + j)%nat b').
    { intros j b' Hj Hb'.
      eapply (eq_rect _ (fun m => batch_ok srv m b')); [apply (Hprev (S j)); [lia|exact Hb']|lia]. }
    rewrite <-Nat.add_succ_comm in Hs.
    destruct (IH k (S n) (acc ++ d) b Hk Hprev' Hs) as [H1 H2].
    rewrite <-Nat.add_succ_comm.
    split; intros Hb; [rewrite (H1 Hb)|rewrite (H2 Hb)]; reflexivity.
Qed.

(** When batch [k] is the first not answered by a 200 with a ['data']
    array but its status is 200, [get_users] raises after the [k + 1]-th
    request: [KeyError('data')] when the JSON has no ['data'] key, a JSON
    decoding error when the body is not JSON. *)
Theorem get_users_missing_data (srv : users_server) (user_ids : list string) k b :
  batches user_ids !! k = Some b ->
  (forall j b', (j < k)%nat -> batches user_ids !! j = Some b' -> batch_ok srv j b') ->
  ur_status (srv k b) = 200 ->
  (ur_body (srv k b) = Some None ->
   get_users srv user_ids = (Raise (KeyError "data"), take (S k) (batches user_ids))) /\
  (ur_body (srv k b) = None ->
   get_users srv user_ids = (Raise JSONDecodeError, take (S k) (batches user_ids))).
Proof.
  intros Hk Hprev Hs. unfold get_users, batches in *.
  destruct (users_loop_stop srv user_ids _ k 0 [] b Hk Hprev Hs) as [H1 H2].
  split; assumption.
Qed.

Lemma get_users_missing_data_witness :
  get_users srv_users_no_data (sample_ids 150) =
    (Raise (KeyError "data"), batches (sample_ids 150)).
Proof.
  destruct (get_users_missing_data srv_users_no_data (sample_ids 150) 1
              (slice (sample_ids 150) 100 200)) as [H _].
  - vm_compute. reflexivity.
  - intros j b' Hj Hb'. destruct j as [|j]; [|lia].
    vm_compute in Hb'. injection Hb' as <-. split; [reflexivity|eexists; reflexivity].
  - reflexivity.
  - rewrite H by reflexivity. vm_compute. reflexivity.
Defined.

(* ------------------------------------------------------------------ *)
(** ** The shape of the tags' sources *)

Lemma take_drop_while f s : s = (take_while f s ++ drop_while f s)%string.
Proof.
  induction s as [|c s IH]; simpl; [reflexivity|].
  destruct (f c); [exact (f_equal (String c) IH)|reflexivity].
Qed.

Lemma take_while_all f s : all_chars f (take_while f s) = true.
Proof.
  induction s as [|c s IH]; simpl; [reflexivity|].
  destruct (f c) eqn:Hc; simpl; [by rewrite Hc, IH|reflexivity].
Qed.

Lemma drop_while_stop f s :
  drop_while f s = EmptyString \/
  exists d rest, drop_while f s = String d rest /\ f d = false.
Proof.
  induction s as [|c s IH]; simpl; [by left|].
  destruct (f c) eqn:Hc; [exact IH|right; by exists c, s].
Qed.

(** The source of a ['mention'] row: [re.search(r'@([^\s]+)', text)] finds
    an ['@'] followed by a non-empty run of non-space characters that
    extends to the end of the text or to a whitespace character. *)
Theorem mention_search_shape (t h : string) :
  mention_search t = Some h ->
  exists pre post,
    t = (pre ++ "@" ++ h ++ post)%string /\
    h <> EmptyString /\
    all_chars (fun c => negb (is_space c)) h = true /\
    (post = EmptyString \/ exists d rest, post = String d rest /\ is_space d = true).
Proof.
  induction t as [|c s IH]; simpl; [discriminate|].
  destruct (Ascii.eqb c "@" && negb (is_empty (take_while (fun c => negb (is_space c)) s)))
    eqn:Hc.
  - intros [= <-]. apply andb_true_iff in Hc as [Hat Hne].
    apply Ascii.eqb_eq in Hat as ->.
    exists EmptyString, (drop_while (fun c => negb (is_space c)) s).
    split; [exact (f_equal (String "@") (take_drop_while _ s))|].
    split; [by destruct (take_while _ s)|].
    split; [apply take_while_all|].
    destruct (drop_while_stop (fun c => negb (is_space c)) s) as [E|[d [rest [E Hd]]]];
      [by left|right]. exists d, rest. split; [exact E|]. by destruct (is_space d).
  - intros Hs. destruct (IH Hs) as [pre [post [-> H]]].
    exists (String c pre), post. split; [reflexivity|exact H].
Qed.

Lemma mention_search_shape_witness :
  mention_search "hello @nasa launch" = Some "nasa"%string /\
  exists pre post,
    "hello @nasa launch"%string = (pre ++ "@" ++ "nasa" ++ post)%string /\
    "nasa"%string <> EmptyString /\
    all_chars (fun c => negb (is_space c)) "nasa" = true /\
    (post = EmptyString \/ exists d rest, post = String d rest /\ is_space d = true).
Proof.
  split; [reflexivity|]. apply mention_search_shape. reflexivity.
Defined.

(** The source of a ['retweet'] row: [re.search(r'RT @([^:\s]+):', text)]
    finds ["RT @"], a non-empty run of characters that are neither [':']
    nor whitespace, and the [':'] that ends it. *)
Theorem retweet_search_shape (t h : string) :
  retweet_search t = Some h ->
  exists pre post,
    t = (pre ++ "RT @" ++ h ++ ":" ++ post)%string /\
    h <> EmptyString /\
    all_chars handle_char h = true.
Proof.
  induction t as [|c s IH]; [discriminate|].
  change (retweet_search (String c s)) with
    (match retweet_at (String c s) with
     | Some g => Some g | None => retweet_search s end).
  destruct (retweet_at (String c s)) as [g|] eqn:Ha.
  - intros [= <-]. unfold retweet_at in Ha.
    destruct (String.prefix "RT @" (String c s)) eqn:Hp; [|discriminate].
    destruct (prefix_app _ _ Hp) as [r Er]. rewrite Er in Ha.
    pose proof (substring_app "RT @" r) as Hs. simpl (String.length "RT @") in Hs.
    rewrite Hs in Ha.
    destruct (drop_while handle_char r) as [|d rest] eqn:Hd; [discriminate|].
    destruct (negb (is_empty (take_while handle_char r)) && Ascii.eqb d ":")
      eqn:Hg; [|discriminate].
    injection Ha as <-. apply andb_true_iff in Hg as [Hne Hcolon].
    apply Ascii.eqb_eq in Hcolon as ->.
    exists EmptyString, rest. simpl. rewrite Er. split.
    + transitivity ("RT @" ++ (take_while handle_char r ++ drop_while handle_char r))%string;
        [f_equal; apply take_drop_while|].
      rewrite Hd. reflexivity.
    + split; [by destruct (take_while handle_char r)|apply take_while_all].
  - intros Hr. destruct (IH Hr) as [pre [post [-> H]]].
    exists (String c pre), post. split; [reflexivity|exact H].
Qed.

Lemma retweet_search_shape_witness :
  retweet_search "RT @nasa: liftoff" = Some "nasa"%string /\
  exists pre post,
    "RT @nasa: liftoff"%string = (pre ++ "RT @" ++ "nasa" ++ ":" ++ post)%string /\
    "nasa"%string <> EmptyString /\ all_chars handle_char "nasa" = true.
Proof.
  split; [reflexivity|]. apply retweet_search_shape. reflexivity.
Defined.

Lemma mention_search_no_at t :
  has_char "@" t = false -> mention_search t = None.
Proof.
  induction t as [|c s IH]; simpl; [reflexivity|].
  destruct (Ascii.eqb c "@") eqn:Hc; simpl; [|exact IH].
  apply Ascii.eqb_eq in Hc as ->. simpl. discriminate.
Qed.

(** A tweet whose text has no ['@'] matches neither pattern: its row has an
    empty tag and an empty source. *)
Theorem classify_no_at (t : string) :
  has_char "@" t = false -> classify t = (""%string, ""%string).
Proof.
  intros H. pose proof (mention_search_no_at t H) as Hm.
  destruct (retweet_search t) eqn:Hr.
  - exfalso. apply (retweet_implies_mention t); [by rewrite Hr|exact Hm].
  - unfold classify. by rewrite Hm, Hr.
Qed.

Lemma classify_no_at_witness :
  classify "liftoff at 9am" = (""%string, ""%string).
Proof. apply classify_no_at. reflexivity. Defined.

(* ------------------------------------------------------------------ *)
(** ** The rows of [keyword2csv] as a set *)

Lemma nodes_list_to_set tweets users keyword :
  nodes tweets users keyword = list_to_set (map (row_of users keyword) tweets).
Proof.
  apply set_eq. intros r. rewrite elem_of_nodes, elem_of_list_to_set, list_elem_of_fmap.
  split; intros [tw [H1 H2]]; exists tw; split; done.
Qed.

Lemma size_list_to_set_le (l : list row) :
  (size (list_to_set l : gset row) <= List.length l)%nat.
Proof.
  induction l as [|x l IH]; cbn [List.length].
  { change (list_to_set [] : gset row) with (∅ : gset row). rewrite size_empty. lia. }
  change (list_to_set (x :: l) : gset row) with ({[x]} ∪ list_to_set l : gset row).
  rewrite size_union_alt, size_singleton.
  assert (size (list_to_set l ∖ {[x]} : gset row) <= size (list_to_set l : gset row))%nat
    by (apply subseteq_size; set_solver).
  lia.
Qed.

(** [nodes] is a set: the rows depend only on which tweets occur, not on
    their order or on repetitions. *)
Theorem nodes_same_tweets (tweets1 tweets2 : list tweet) users keyword :
  (forall tw, tw ∈ tweets1 <-> tw ∈ tweets2) ->
  nodes tweets1 users keyword = nodes tweets2 users keyword.
Proof.
  intros H. apply set_eq. intros r. rewrite !elem_of_nodes.
  split; intros [tw [Htw ->]]; exists tw; split; try reflexivity; by apply H.
Qed.

Lemma nodes_same_tweets_witness :
  nodes [sample_tweet "1"; sample_tweet "2"; sample_tweet "1"] ∅ "nasa" =
  nodes [sample_tweet "2"; sample_tweet "1"] ∅ "nasa".
Proof.
  apply nodes_same_tweets. intros tw. rewrite !elem_of_cons. split; [tauto|].
  intros [H|[H|H]]; [tauto|tauto|by apply elem_of_nil in H].
Defined.

(** The file has at most one data row per tweet, and exactly one per tweet
    when the tweet ids are pairwise distinct. *)
Theorem nodes_size (tweets : list tweet) users keyword :
  (size (nodes tweets users keyword) <= List.length tweets)%nat /\
  (NoDup (map t_id tweets) -> size (nodes tweets users keyword) = List.length tweets).
Proof.
  rewrite nodes_list_to_set. split.
  - pose proof (size_list_to_set_le (map (row_of users keyword) tweets)) as H.
    rewrite length_map in H. exact H.
  - intros Hnd. rewrite size_list_to_set, length_map; [reflexivity|].
    apply (NoDup_fmap_1 (fun r : row => r.1.1.1.1.1.1.1.1)).
    replace ((fun r : row => r.1.1.1.1.1.1.1.1) <$> map (row_of users keyword) tweets)
      with (map t_id tweets); [exact Hnd|].
    change (fmap ?f ?l) with (map f l). rewrite map_map.
    apply map_ext. intros tw. unfold row_of. by destruct (classify (t_text tw)).
Qed.

Lemma nodes_size_witness :
  size (nodes [sample_tweet "1"; sample_tweet "2"] ∅ "nasa") = 2%nat.
Proof.
  destruct (nodes_size [sample_tweet "1"; sample_tweet "2"] ∅ "nasa") as [_ H].
  apply H. repeat constructor; simpl; set_solver.
Defined.

(* ------------------------------------------------------------------ *)
(** ** [userdata2csv] *)

(** The row of one user object: ['public_metrics'] is read first, then the
    seven profile keys and the four metrics in the order of the header; the
    first key missing raises [KeyError] with that key, a [public_metrics]
    that is not an object raises [TypeError] once the profile keys are
    read; otherwise the row holds the values of the header's keys, in the
    header's order. *)
Theorem user_row_keys (kvs : list (string * json_value)) :
  userdata_header =
    ["id"; "username"; "name"; "created_at"; "location"; "verified"; "description"]
    ++ ["followers_count"; "following_count"; "tweet_count"; "listed_count"] /\
  user_row (JObj kvs) =
    match dict_lookup "public_metrics" kvs with
    | None => inl (CsvKeyError "public_metrics")
    | Some pm =>
        match find (missing kvs)
               ["id"; "username"; "name"; "created_at"; "location"; "verified"; "description"]
        with
        | Some k => inl (CsvKeyError k)
        | None =>
            match pm with
            | JObj m =>
                match find (missing m)
                       ["followers_count"; "following_count"; "tweet_count"; "listed_count"]
                with
                | Some k => inl (CsvKeyError k)
                | None =>
                    inr (map (field kvs)
                           ["id"; "username"; "name"; "created_at"; "location"; "verified";
                            "description"]
                         ++ map (field m)
                              ["followers_count"; "following_count"; "tweet_count";
                               "listed_count"])
                end
            | _ => inl CsvTypeError
            end
        end
    end.
Proof.
  split; [reflexivity|].
  unfold user_row, csv_bind, getitem at 1.
  destruct (dict_lookup "public_metrics" kvs) as [pm|]; [|reflexivity].
  unfold getitem, missing, field. cbn [find map app negb].
  repeat (destruct (dict_lookup _ kvs); [cbn|reflexivity]).
  destruct pm as [| | | | |m]; try reflexivity.
  repeat (destruct (dict_lookup _ m); [cbn|reflexivity]).
  reflexivity.
Qed.

Lemma write_user_rows_spec users :
  let '(e, rows) := write_user_rows users in
  (forall j r, rows !! j = Some r -> exists u, users !! j = Some u /\ user_row u = inr r) /\
  match e with
  | None => List.length rows = List.length users
  | Some err => exists u, users !! List.length rows = Some u /\ user_row u = inl err
  end.
Proof.
  induction users as [|u users IH]; simpl.
  - split; [|reflexivity]. intros j r Hj. by rewrite lookup_nil in Hj.
  - destruct (user_row u) as [err|r] eqn:Hu.
    + split; [intros j r Hj; by rewrite lookup_nil in Hj|]. by exists u.
    + destruct (write_user_rows users) as [e rows]. destruct IH as [IH1 IH2]. split.
      * intros [|j] r' Hj; simpl in Hj.
        -- injection Hj as <-. by exists u.
        -- exact (IH1 j r' Hj).
      * destruct e; simpl; [exact IH2|lia].
Qed.

(** The file written by [userdata2csv] is the header followed by the rows
    of the users, in order, up to the first user whose row cannot be built;
    that user's exception is raised and the rows before it stay in the
    file. *)
Theorem userdata2csv_file (users : list json_value) :
  let '(e, file) := userdata2csv users in
  exists rows,
    file = map JStr userdata_header :: rows /\
    (forall j r, rows !! j = Some r -> exists u, users !! j = Some u /\ user_row u = inr r) /\
    match e with
    | None => List.length rows = List.length users
    | Some err => exists u, users !! List.length rows = Some u /\ user_row u = inl err
    end.
Proof.
  unfold userdata2csv. pose proof (write_user_rows_spec users) as H.
  destruct (write_user_rows users) as [e rows]. by exists rows.
Qed.

(* ------------------------------------------------------------------ *)
(** ** [analysis.splitbylanguage] *)

Section SplitByLanguageProofs.

Variable detect : string -> option string.

Lemma sum_indicator (a : string) (ls : list string) :
  NoDup ls -> a ∈ ls ->
  sum_list (map (fun l => if String.eqb a l then 1 else 0) ls)%nat = 1%nat.
Proof.
  induction ls as [|l ls IH]; intros Hnd Ha; [by apply elem_of_nil in Ha|].
  apply NoDup_cons in Hnd as [Hl Hnd]. simpl.
  destruct (String.eqb_spec a l) as [->|Hne].
  - assert (sum_list (map (fun l' => if String.eqb l l' then 1 else 0) ls) = 0)%nat as ->;
      [|lia].
    clear IH Hnd Ha. induction ls as [|l' ls IH']; [reflexivity|]. simpl.
    rewrite elem_of_cons in Hl.
    destruct (String.eqb_spec l l'); [tauto|]. apply IH'. tauto.
  - apply elem_of_cons in Ha as [?|Ha]; [done|]. by apply IH.
Qed.

Lemma sum_group_counts (col : list cell) (ls : list string) :
  NoDup ls -> (forall x, x ∈ col -> language_of detect x ∈ ls) ->
  sum_list (map (group_count detect col) ls) =
  List.length (List.filter notnull col).
Proof.
  intros Hnd. induction col as [|x col IH]; intros Hin.
  - simpl. clear Hnd Hin. induction ls; simpl; [reflexivity|]. by rewrite IHls.
  - assert (Hsplit : forall l, group_count detect (x :: col) l =
              ((if notnull x then (if String.eqb (language_of detect x) l then 1 else 0) else 0)
               + group_count detect col l)%nat).
    { intros l. unfold group_count. simpl.
      destruct (notnull x); simpl; [|reflexivity].
      by destruct (String.eqb (language_of detect x) l). }
    rewrite (map_ext _ _ Hsplit).
    assert (Hsum : forall (f g : string -> nat) l,
               sum_list (map (fun y => f y + g y)%nat l) =
               (sum_list (map f l) + sum_list (map g l))%nat).
    { intros f g l. induction l; simpl; [reflexivity|]. rewrite IHl. lia. }
    rewrite Hsum, IH by (intros y Hy; apply Hin, elem_of_cons; by right).
    simpl. destruct (notnull x) eqn:Hx; simpl.
    + rewrite sum_indicator; [reflexivity|exact Hnd|apply Hin, elem_of_cons; by left].
    + assert (sum_list (map (fun _ : string => 0%nat) ls) = 0%nat) as ->; [|reflexivity].
      clear. induction ls; simpl; [reflexivity|exact IHls].
Qed.

Lemma sum_list_perm (l1 l2 : list nat) : l1 ≡ₚ l2 -> sum_list l1 = sum_list l2.
Proof. induction 1; simpl; lia. Qed.

(** [.count()] skips missing cells: the counts of all the groups add up to
    the number of non-empty cells of the content column. *)
Theorem splitbylanguage_total (col : list cell) (out : list (string * nat)) :
  splitbylanguage detect col out ->
  sum_list (map snd out) = List.length (List.filter notnull col).
Proof.
  intros [Hp _]. rewrite (sum_list_perm _ _ (Permutation_map snd Hp)).
  unfold language_counts. rewrite map_map. simpl.
  apply sum_group_counts; [apply NoDup_remove_dups|].
  intros x Hx. unfold language_groups. apply elem_of_remove_dups, list_elem_of_fmap.
  by exists x.
Qed.

Lemma remove_dups_unknown (col : list cell) :
  col <> [] -> (forall x, x ∈ col -> x = None) ->
  language_groups detect col = ["Unknown"%string].
Proof.
  unfold language_groups. induction col as [|x col IH]; intros Hne Hnull; [done|].
  rewrite (Hnull x) by (apply elem_of_cons; by left). simpl.
  destruct col as [|y col]; [reflexivity|].
  assert (Hy : y = None) by (apply Hnull, elem_of_cons; right; apply elem_of_cons; by left).
  rewrite Hy in IH |- *.
  destruct (decide_rel _ _ _) as [_|Hn]; [|exfalso; apply Hn; simpl; apply elem_of_cons; by left].
  apply IH; [done|]. intros z Hz. apply Hnull, elem_of_cons. right. by rewrite Hy.
Qed.

(** Missing cells go to the ['Unknown'] group but are not counted: a
    non-empty column whose cells are all missing gives the single row
    [('Unknown', 0)]. *)
Theorem splitbylanguage_all_missing (col : list cell) (out : list (string * nat)) :
  col <> [] -> (forall x, x ∈ col -> x = None) ->
  splitbylanguage detect col out -> out = [("Unknown"%string, 0%nat)].
Proof.
  intros Hne Hnull [Hp _].
  unfold language_counts in Hp. rewrite remove_dups_unknown in Hp by done.
  simpl in Hp.
  replace (group_count detect col "Unknown") with 0%nat in Hp.
  - by apply Permutation_singleton_r in Hp.
  - unfold group_count. clear Hne Hp. induction col as [|x col IH]; [reflexivity|].
    rewrite (Hnull x) by (apply elem_of_cons; by left). simpl.
    apply IH. intros y Hy. apply Hnull, elem_of_cons. by right.
Qed.

End SplitByLanguageProofs.

Ltac solve_split :=
  split; [vm_compute; apply (bool_decide_unpack _); vm_compute; reflexivity|];
  repeat constructor; simpl; lia.

Lemma splitbylanguage_total_witness :
  sum_list (map snd sample_languages) = List.length (List.filter notnull sample_column).
Proof. apply (splitbylanguage_total sample_detect). solve_split. Defined.

Lemma splitbylanguage_all_missing_witness :
  [("Unknown"%string, 0%nat)] = [("Unknown"%string, 0%nat)] :> list (string * nat).
Proof.
  apply (splitbylanguage_all_missing sample_detect [None; None]).
  - discriminate.
  - intros x Hx. apply elem_of_cons in Hx as [->|Hx]; [reflexivity|].
    apply elem_of_cons in Hx as [->|Hx]; [reflexivity|by apply elem_of_nil in Hx].
  - solve_split.
Defined.
